(** * Markdown rendering engine of the medical assistant (src/App.tsx)

    A shallow embedding of [renderInline] and [MarkdownRenderer]: the
    inline formatter that splits a string on the bold syntax and the block
    segmenter that walks the lines of a reply with one cursor.

    JavaScript strings are sequences of UTF-16 code units; they are
    embedded as lists of code units, so that [trim], the regular
    expression classes and the line terminators are the ones of the
    language and not those of a byte string. *)

From Stdlib Require Import String Ascii.
From Stdlib Require Import List NArith ZArith Bool Lia.
From Equations Require Import Equations.
Import ListNotations.

(* ===================================================================== *)
(** ** JavaScript strings *)
(* ===================================================================== *)

Module JS.

(** A string is the list of its UTF-16 code units. *)
Abbreviation str := (list N).

(** A literal of the source, written as a Rocq string. *)
Definition lit (s : string) : str :=
  List.map N_of_ascii (list_ascii_of_string s).

(** ECMAScript [WhiteSpace]: TAB, VT, FF, SP, NBSP, ZWNBSP and the
    space separators (category Zs). *)
Definition isWhiteSpace (c : N) : bool :=
  ((c =? 9) || (c =? 11) || (c =? 12) || (c =? 32) || (c =? 160)
   || (c =? 5760) || ((8192 <=? c) && (c <=? 8202))
   || (c =? 8239) || (c =? 8287) || (c =? 12288) || (c =? 65279))%N.

(** ECMAScript [LineTerminator]: LF, CR, LS, PS. *)
Definition isLineTerminator (c : N) : bool :=
  ((c =? 10) || (c =? 13) || (c =? 8232) || (c =? 8233))%N.

(** What [trim] strips and what the class [\s] matches. *)
Definition isSpace (c : N) : bool := isWhiteSpace c || isLineTerminator c.

(** The class [\d]. *)
Definition isDigit (c : N) : bool := ((48 <=? c) && (c <=? 57))%N.

Fixpoint dropWhile (p : N -> bool) (s : str) : str :=
  match s with
  | [] => []
  | c :: r => if p c then dropWhile p r else s
  end.

Definition trimStart (s : str) : str := dropWhile isSpace s.
Definition trimEnd (s : str) : str := rev (dropWhile isSpace (rev s)).

(** [s.trim()] *)
Definition trim (s : str) : str := trimEnd (trimStart s).

(** [s.startsWith(p)] *)
Fixpoint startsWith (p s : str) : bool :=
  match p, s with
  | [], _ => true
  | _ :: _, [] => false
  | a :: p', b :: s' => (a =? b)%N && startsWith p' s'
  end.

(** [s.endsWith(p)] *)
Definition endsWith (p s : str) : bool := startsWith (rev p) (rev s).

(** [s.substring(n)] for a literal [n >= 0]. *)
Definition substring (n : nat) (s : str) : str := skipn n s.

(** A relative index of [slice], clamped into [0 .. len]. *)
Definition clampIndex (len : nat) (k : Z) : nat :=
  if (k <? 0)%Z then Z.to_nat (Z.max (Z.of_nat len + k) 0)
  else Nat.min (Z.to_nat k) len.

(** [s.slice(b, e)] *)
Definition slice (b e : Z) (s : str) : str :=
  let from := clampIndex (length s) b in
  let to := clampIndex (length s) e in
  firstn (to - from) (skipn from s).

(** [s.split(sep)] for a separator of one code unit: the pieces between
    the separators, the empty string giving one empty piece. *)
Fixpoint splitOn (sep : N) (s : str) : list str :=
  match s with
  | [] => [[]]
  | c :: r =>
      if (c =? sep)%N then [] :: splitOn sep r
      else match splitOn sep r with
           | [] => [[c]]
           | piece :: pieces => (c :: piece) :: pieces
           end
  end.

(** The text made of the given lines, joined by LF. *)
Fixpoint unlines (ls : list string) : str :=
  match ls with
  | [] => []
  | [l] => lit l
  | l :: ls' => lit l ++ 10%N :: unlines ls'
  end.

End JS.
Import JS.

(* ===================================================================== *)
(** ** The inline formatter: [renderInline] *)
(* ===================================================================== *)

(** A child produced by [renderInline]: a string is a plain text run, a
    [<strong>] element is an emphasized one. *)
Inductive InlineSpan : Type :=
| PlainText (s : str)
| Emphasized (s : str).

Definition bold : str := Eval cbv in lit "**".

(** The tail of the bold pattern (a lazy run of any code units, then two
    stars), tried where the opening delimiter ended: the lazy star takes
    as few code units as it can, none of them a line terminator, until the
    closing delimiter follows.  The result is the text taken by the star
    and what is left after the closing delimiter. *)
Fixpoint lazyClose (s : str) : option (str * str) :=
  if startsWith bold s then Some ([], skipn 2 s)
  else match s with
       | [] => None
       | c :: r =>
           if isLineTerminator c then None
           else match lazyClose r with
                | Some (m, rest) => Some (c :: m, rest)
                | None => None
                end
       end.

(** A match of the bold pattern (two stars, the lazy run, two stars)
    anchored at the head of [s]. *)
Definition boldMatch (s : str) : option (str * str) :=
  if startsWith bold s then lazyClose (skipn 2 s) else None.

(** A value together with the equation that it is the value of [a]: lets a
    recursive call use what a test has returned. *)
Definition inspect {A : Type} (a : A) : {b : A | a = b} := exist _ a eq_refl.

(** [text.split] on the bold pattern, a global regular expression made of
    one capture group: the scan of [RegExp.prototype[@@split]].
    [acc] is the piece since the end of the last match and [s] the text
    from the scan position on.  A match closes the piece, is itself kept
    (it is the capture) and the scan resumes after it;
    where there is no match the scan moves one code unit on. *)
Equations? splitScan (acc : str) (s : str) : list str by wf (length s) lt :=
  splitScan acc [] := [acc];
  splitScan acc (c :: r) with inspect (boldMatch (c :: r)) := {
    | exist _ (Some (m, rest)) _ => acc :: (bold ++ m ++ bold) :: splitScan [] rest;
    | exist _ None _ => splitScan (acc ++ [c]) r }.
Proof.
  (* the closing delimiter is found in what follows the opening one *)
  assert (shorter : forall s m' rest', lazyClose s = Some (m', rest') ->
                                        length rest' <= length s).
  { induction s as [|c0 r0 IH]; intros m' rest'; cbn [lazyClose].
    - cbn. discriminate.
    - destruct (startsWith bold (c0 :: r0)).
      + intros H; assert (Hr : rest' = skipn 2 (c0 :: r0)) by congruence.
        rewrite Hr, length_skipn. lia.
      + destruct (isLineTerminator c0); [discriminate|].
        destruct (lazyClose r0) as [[m0 rest0]|]; [|discriminate].
        intros H; assert (Hr : rest' = rest0) by congruence.
        specialize (IH _ _ eq_refl). subst rest'. cbn [length]. lia. }
  unfold boldMatch in e. destruct (startsWith bold (c :: r)) eqn:E; [|discriminate].
  apply shorter in e. rewrite length_skipn in e.
  cbn [length] in e |- *. lia.
Qed.

Definition splitBold (text : str) : list str := splitScan [] text.

(** The callback of [parts.map]. *)
Definition renderPart (part : str) : InlineSpan :=
  if startsWith bold part && endsWith bold part
  then Emphasized (slice 2 (-2) part)
  else PlainText part.

Definition renderInline (text : str) : list InlineSpan :=
  List.map renderPart (splitBold text).

(* ===================================================================== *)
(** ** The block segmenter: [MarkdownRenderer] *)
(* ===================================================================== *)

(** The nodes pushed by [MarkdownRenderer].  A heading and a header cell
    hold the string the source puts in the element; the cells of the data
    rows, the list items and the paragraphs hold what [renderInline]
    returned.  A string child is a plain text run. *)
Inductive Block : Type :=
| Heading (level : nat) (text : list InlineSpan)
| Table (headers : list str) (rows : list (list (list InlineSpan)))
| UnorderedList (items : list (list InlineSpan))
| OrderedList (items : list (list InlineSpan))
| Paragraph (text : list InlineSpan).

Definition Document : Type := list Block.

Definition h3Mark : str := Eval cbv in lit "### ".
Definition h2Mark : str := Eval cbv in lit "## ".
Definition pipe : str := Eval cbv in lit "|".
Definition starMark : str := Eval cbv in lit "* ".
Definition dashMark : str := Eval cbv in lit "- ".

(** [line.startsWith('|')] *)
Definition isTableLine (line : str) : bool := startsWith pipe line.

(** [line.startsWith('* ') || line.startsWith('- ')] *)
Definition isBulletLine (line : str) : bool :=
  startsWith starMark line || startsWith dashMark line.

(** A match of the ordered marker (digits, one or more, and a period) at
    the start of [line]: what follows the period. *)
Definition orderedMarker (line : str) : option str :=
  let after := dropWhile isDigit line in
  if length after <? length line then
    match after with
    | c :: r => if (c =? 46)%N then Some r else None
    | [] => None
    end
  else None.

(** The [test] of the ordered marker on [line]. *)
Definition isOrderedLine (line : str) : bool :=
  match orderedMarker line with Some _ => true | None => false end.

(** [line.replace] of the ordered marker and the white space after it by
    the empty string; a line without the marker is returned as it is. *)
Definition stripOrdered (line : str) : str :=
  match orderedMarker line with
  | Some r => dropWhile isSpace r
  | None => line
  end.

(** [c.trim() !== ''] *)
Definition nonBlank (c : str) : bool :=
  match trim c with [] => false | _ :: _ => true end.

(** [r.split('|').filter(c => c.trim() !== '').map(c => c.trim())] *)
Definition tableCells (r : str) : list str :=
  List.map trim (List.filter nonBlank (splitOn 124%N r)).

(** The inner [while] of a grouping branch,
    [while (i < lines.length && p(lines[i].trim())) { out.push(f(lines[i].trim())); i++ }],
    run on [rest], the lines from the cursor [i] on.  It returns the
    cursor where it stopped and the array it filled. *)
Fixpoint whileRun (p : str -> bool) (f : str -> str)
         (rest : list str) (i : Z) (out : list str) : Z * list str :=
  match rest with
  | [] => (i, out)
  | l :: rest' =>
      if p (trim l) then whileRun p f rest' (i + 1)%Z (out ++ [f (trim l)])
      else (i, out)
  end.

(** [lines[i]] when it is a string: [None] stands for [undefined]. *)
Definition lineAt (lines : list str) (i : Z) : option str :=
  if (i <? 0)%Z then None else nth_error lines (Z.to_nat i).

(** The lines from the cursor on. *)
Definition linesFrom (lines : list str) (i : Z) : list str :=
  skipn (Z.to_nat i) lines.

(** The body of the [for] loop at cursor [i]: the cursor and the nodes it
    leaves, before the [i++] of the loop.  [None] is the [TypeError] of
    [lines[i].trim()] on [undefined].  The React keys are left out. *)
Definition body (lines : list str) (i : Z) (nodes : Document)
  : option (Z * Document) :=
  match lineAt lines i with
  | None => None
  | Some raw =>
      let line := trim raw in
      if startsWith h3Mark line then
        Some (i, nodes ++ [Heading 3 [PlainText (substring 4 line)]])
      else if startsWith h2Mark line then
        Some (i, nodes ++ [Heading 2 [PlainText (substring 3 line)]])
      else if isTableLine line then
        let '(j, tableRows) :=
          whileRun isTableLine (fun l => l) (linesFrom lines i) i [] in
        let i' := (j - 1)%Z in
        if 2 <=? length tableRows then
          let headers := tableCells (nth 0 tableRows []) in
          let rows := List.map tableCells (skipn 2 tableRows) in
          Some (i', nodes ++ [Table headers (List.map (List.map renderInline) rows)])
        else Some (i', nodes)
      else if isBulletLine line then
        let '(j, listItems) :=
          whileRun isBulletLine (substring 2) (linesFrom lines i) i [] in
        Some ((j - 1)%Z, nodes ++ [UnorderedList (List.map renderInline listItems)])
      else if isOrderedLine line then
        let '(j, listItems) :=
          whileRun isOrderedLine stripOrdered (linesFrom lines i) i [] in
        Some ((j - 1)%Z, nodes ++ [OrderedList (List.map renderInline listItems)])
      else if 0 <? length line then
        Some (i, nodes ++ [Paragraph (renderInline line)])
      else Some (i, nodes)
  end.

(** How a run of the renderer ends. *)
Inductive outcome : Type :=
| Returned (doc : Document)
| Threw
| OutOfFuel.

(** [for (let i = 0; i < lines.length; i++) { body }], the cursor being an
    integer that the body may move either way; [fuel] bounds the number of
    iterations. *)
Fixpoint forLoop (fuel : nat) (lines : list str) (i : Z) (nodes : Document)
  : outcome :=
  if (i <? Z.of_nat (length lines))%Z then
    match fuel with
    | O => OutOfFuel
    | S fuel' =>
        match body lines i nodes with
        | None => Threw
        | Some (i', nodes') => forLoop fuel' lines (i' + 1)%Z nodes'
        end
    end
  else Returned nodes.

(** The renderer on the array of lines: one iteration per line is enough,
    see [forLoop_Segments]. *)
Definition renderLines (lines : list str) : outcome :=
  forLoop (length lines) lines 0%Z [].

(** [MarkdownRenderer({content})]: the nodes of the fragment it returns. *)
Definition MarkdownRenderer (content : str) : outcome :=
  renderLines (splitOn 10%N content).

(* ===================================================================== *)
(** ** Notions used to state the properties *)
(* ===================================================================== *)

(** The lines at the head of [rest] whose trimmed form satisfies [p],
    trimmed: the contiguous run that starts there. *)
Fixpoint runLines (p : str -> bool) (rest : list str) : list str :=
  match rest with
  | [] => []
  | l :: rest' => if p (trim l) then trim l :: runLines p rest' else []
  end.

(** No run of [p] goes from the last line of [pre] into [post]. *)
Definition runBreak (p : str -> bool) (pre post : list str) : Prop :=
  p (trim (last pre [])) && p (trim (hd [] post)) = false.

(** No run of any of the three grouping predicates crosses from [pre]
    into [post]. *)
Definition noRunAcross (pre post : list str) : Prop :=
  runBreak isTableLine pre post
  /\ runBreak isBulletLine pre post
  /\ runBreak isOrderedLine pre post.

(** The node of a table run, given its trimmed lines. *)
Definition tableNode (run : list str) : list Block :=
  if 2 <=? length run then
    [Table (tableCells (nth 0 run []))
           (List.map (fun r => List.map renderInline (tableCells r)) (skipn 2 run))]
  else [].

(** How many lines one iteration of the loop takes when the cursor is on
    the head of [rest]. *)
Definition taken (rest : list str) : nat :=
  match rest with
  | [] => 0
  | raw :: _ =>
      let line := trim raw in
      if startsWith h3Mark line then 1
      else if startsWith h2Mark line then 1
      else if isTableLine line then length (runLines isTableLine rest)
      else if isBulletLine line then length (runLines isBulletLine rest)
      else if isOrderedLine line then length (runLines isOrderedLine rest)
      else 1
  end.

(** The nodes that iteration pushes. *)
Definition pushed (rest : list str) : list Block :=
  match rest with
  | [] => []
  | raw :: _ =>
      let line := trim raw in
      if startsWith h3Mark line then [Heading 3 [PlainText (substring 4 line)]]
      else if startsWith h2Mark line then [Heading 2 [PlainText (substring 3 line)]]
      else if isTableLine line then tableNode (runLines isTableLine rest)
      else if isBulletLine line then
        [UnorderedList
           (List.map (fun l => renderInline (substring 2 l)) (runLines isBulletLine rest))]
      else if isOrderedLine line then
        [OrderedList
           (List.map (fun l => renderInline (stripOrdered l)) (runLines isOrderedLine rest))]
      else if 0 <? length line then [Paragraph (renderInline line)]
      else []
  end.

(** The nodes of the lines [rest], iteration after iteration. *)
Inductive Segments : list str -> Document -> Prop :=
| Segments_nil : Segments [] []
| Segments_step l rest out :
    Segments (skipn (taken (l :: rest)) (l :: rest)) out ->
    Segments (l :: rest) (pushed (l :: rest) ++ out).

(** A match of the bold pattern starts at one of the first [n] positions
    of [s]. *)
Fixpoint matchWithin (n : nat) (s : str) : bool :=
  match n with
  | O => false
  | S n' =>
      match boldMatch s with
      | Some _ => true
      | None => match s with
                | [] => false
                | _ :: r => matchWithin n' r
                end
      end
  end.

(** The delimiter does not start at any of the offsets [0 .. length m - 1]
    of [m ++ bold]: the closing delimiter of the match is the first one. *)
Definition closesFirst (m : str) : Prop :=
  forall k, k < length m -> startsWith bold (skipn k (m ++ bold)) = false.

(** The spans of a text as the formatter builds them: a piece outside the
    matches, then alternately a match and the next piece.  No match starts
    inside a piece.  A piece that does not both start and end with the
    delimiter is a plain text run; a match is an emphasized run, its two
    delimiters stripped, its text without line terminator and closed by
    the first delimiter met. *)
Inductive Formats : str -> list InlineSpan -> Prop :=
| Formats_last o sp :
    matchWithin (length o) o = false ->
    (startsWith bold o && endsWith bold o = false -> sp = PlainText o) ->
    Formats o [sp]
| Formats_match o m rest sp spans :
    matchWithin (length o) (o ++ bold ++ m ++ bold ++ rest) = false ->
    (startsWith bold o && endsWith bold o = false -> sp = PlainText o) ->
    Forall (fun c => isLineTerminator c = false) m ->
    closesFirst m ->
    Formats rest spans ->
    Formats (o ++ bold ++ m ++ bold ++ rest) (sp :: Emphasized m :: spans).

(* ===================================================================== *)
(** ** The search handler of the main component *)
(* ===================================================================== *)

(** A reply shown by the component: its text and its sources, title and
    address. *)
Record Reply : Type := mkReply {
  replyText : str;
  replySource : list (str * str)
}.

(** The state of [MedicalAssistant] that [handleSearch] reads and sets. *)
Record AppState : Type := mkAppState {
  apiKey : str;
  query : str;
  loading : bool;
  response : option Reply;
  error : str;
  showSettings : bool
}.

(** What [fetch] is called with: the address, which ends with the key, and
    the text of the one part of the payload.  The rest of the payload, the
    search tool and the system instruction, is the same in every call. *)
Record Request : Type := mkRequest {
  requestUrl : str;
  requestText : str
}.

Definition endpoint : str :=
  Eval cbv in lit "https://generativelanguage.googleapis.com/v1beta/models/gemini-2.5-flash-preview-09-2025:generateContent?key=".

Definition missingKeyMessage : str :=
  Eval cbv in lit "Please enter your Gemini API Key in settings first.".

(** [!s], the negation of a string used as a condition. *)
Definition isFalsy (s : str) : bool :=
  match s with [] => true | _ :: _ => false end.

(** [handleSearch] up to its call of [fetch], where it first waits: the
    state that its updates leave and the request it has sent, if any. *)
Definition handleSearch (s : AppState) : AppState * option Request :=
  if isFalsy (trim (query s)) then (s, None)
  else if isFalsy (trim (apiKey s)) then
    (mkAppState (apiKey s) (query s) (loading s) (response s)
                missingKeyMessage true,
     None)
  else
    (mkAppState (apiKey s) (query s) true None [] (showSettings s),
     Some (mkRequest (endpoint ++ apiKey s) (query s))).

(* ===================================================================== *)
(** ** Further notions used to state the properties *)
(* ===================================================================== *)

(** The delimiter occurs somewhere in the text. *)
Fixpoint containsBold (s : str) : bool :=
  match s with
  | [] => false
  | _ :: r => startsWith bold s || containsBold r
  end.

(** The shape of the nodes the renderer pushes: a heading of level 2 or 3
    with one plain text run, a list with at least one item, every item and
    every paragraph with at least one span, and table cells that are not
    empty. *)
Definition wellFormed (b : Block) : Prop :=
  match b with
  | Heading level text =>
      (level = 2 \/ level = 3) /\ exists s, text = [PlainText s]
  | Table headers rows =>
      Forall (fun h => h <> []) headers
      /\ Forall (Forall (fun cell => cell <> [])) rows
  | UnorderedList items | OrderedList items =>
      items <> [] /\ Forall (fun item => item <> []) items
  | Paragraph text => text <> []
  end.

(* ===================================================================== *)
(** ** The renderer on sample replies *)
(* ===================================================================== *)

Example renderInline_plain :
  renderInline (lit "a ** b") = [PlainText (lit "a ** b")].
Proof. reflexivity. Qed.

Example renderInline_bold :
  renderInline (lit "**Warning**: drowsiness")
  = [PlainText []; Emphasized (lit "Warning"); PlainText (lit ": drowsiness")].
Proof. reflexivity. Qed.

Example render_heading :
  MarkdownRenderer (lit "### Conditions Treated")
  = Returned [Heading 3 [PlainText (lit "Conditions Treated")]].
Proof. reflexivity. Qed.

Example render_table :
  MarkdownRenderer (unlines ["| Feature | Details |"; "| :--- | :--- |"; "| Best Time | Morning |"]%string)
  = Returned [Table [lit "Feature"; lit "Details"]
                    [[[PlainText (lit "Best Time")]; [PlainText (lit "Morning")]]]].
Proof. reflexivity. Qed.

Example render_lone_row : MarkdownRenderer (lit "| lone row |") = Returned [].
Proof. reflexivity. Qed.

Example render_bullets :
  MarkdownRenderer (unlines ["* a"; "* b"; "plain"]%string)
  = Returned [UnorderedList [[PlainText (lit "a")]; [PlainText (lit "b")]];
              Paragraph [PlainText (lit "plain")]].
Proof. reflexivity. Qed.

Example render_ordered :
  MarkdownRenderer (unlines ["5. first"; "9.second"; ""; " 12 x"]%string)
  = Returned [OrderedList [[PlainText (lit "first")]; [PlainText (lit "second")]];
              Paragraph [PlainText (lit "12 x")]].
Proof. reflexivity. Qed.

(* ===================================================================== *)
(** ** Facts about the string operations *)
(* ===================================================================== *)

Section StringFacts.

Lemma startsWith_app p s : startsWith p (p ++ s) = true.
Proof.
  induction p as [|a p IH]; simpl; [reflexivity|].
  rewrite N.eqb_refl, IH. reflexivity.
Qed.

Lemma startsWith_inv p s :
  startsWith p s = true -> exists r, s = p ++ r.
Proof.
  revert s; induction p as [|a p IH]; intros s H.
  - exists s. reflexivity.
  - destruct s as [|b s]; [discriminate|]. simpl in H.
    apply andb_true_iff in H as [Hab H]. apply N.eqb_eq in Hab.
    destruct (IH _ H) as [r ->]. exists r. subst b. reflexivity.
Qed.

Lemma startsWith_length p s : startsWith p s = true -> length p <= length s.
Proof.
  intros [r ->]%startsWith_inv. rewrite length_app. lia.
Qed.

(** Only the first [length p] code units of the string matter. *)
Lemma startsWith_app_r p a x :
  length p <= length a -> startsWith p (a ++ x) = startsWith p a.
Proof.
  revert a; induction p as [|c p IH]; intros a H; [reflexivity|].
  destruct a as [|b a]; simpl in H; [lia|]. simpl.
  rewrite IH by lia. reflexivity.
Qed.

Lemma endsWith_app p s : endsWith p (s ++ p) = true.
Proof. unfold endsWith. rewrite rev_app_distr. apply startsWith_app. Qed.

Lemma dropWhile_nil p s : dropWhile p s = [] <-> forallb p s = true.
Proof.
  induction s as [|c s IH]; simpl; [tauto|].
  destruct (p c); simpl; [exact IH|]. split; discriminate.
Qed.

Lemma dropWhile_In p s x : In x (dropWhile p s) -> In x s.
Proof.
  induction s as [|c s IH]; simpl; [tauto|].
  destruct (p c); simpl; tauto.
Qed.

Lemma dropWhile_keeps p s x : In x s -> p x = false -> In x (dropWhile p s).
Proof.
  induction s as [|c s IH]; simpl; [tauto|].
  intros [->|H] Hx.
  - rewrite Hx. left. reflexivity.
  - destruct (p c); [auto|]. right. exact H.
Qed.

Lemma forallb_dropWhile p s :
  forallb p (dropWhile p s) = forallb p s.
Proof.
  induction s as [|c s IH]; simpl; [reflexivity|].
  destruct (p c) eqn:E; simpl; [exact IH|]. rewrite E. reflexivity.
Qed.

Lemma forallb_rev (p : N -> bool) s : forallb p (rev s) = forallb p s.
Proof.
  induction s as [|c s IH]; simpl; [reflexivity|].
  rewrite forallb_app, IH. simpl. rewrite andb_true_r. apply andb_comm.
Qed.

(** A string trims to the empty string exactly when it is made of
    white space and line terminators only. *)
Lemma trim_nil s : trim s = [] <-> forallb isSpace s = true.
Proof.
  unfold trim, trimEnd, trimStart.
  rewrite <- (forallb_dropWhile isSpace s),
          <- (forallb_rev isSpace (dropWhile isSpace s)),
          <- dropWhile_nil.
  split; intros H.
  - apply (f_equal (@rev N)) in H. rewrite rev_involutive in H. exact H.
  - rewrite H. reflexivity.
Qed.

Lemma trim_In s x : In x (trim s) -> In x s.
Proof.
  unfold trim, trimEnd, trimStart. intros H.
  apply in_rev, dropWhile_In, in_rev, dropWhile_In in H. exact H.
Qed.

Lemma trim_keeps s x : In x s -> isSpace x = false -> In x (trim s).
Proof.
  unfold trim, trimEnd, trimStart. intros H Hx.
  apply (proj1 (in_rev _ _)). apply dropWhile_keeps; [|exact Hx].
  apply (proj1 (in_rev _ _)). apply dropWhile_keeps; assumption.
Qed.

Lemma nonBlank_spec c :
  nonBlank c = true <-> exists x, In x c /\ isSpace x = false.
Proof.
  unfold nonBlank. split.
  - destruct (trim c) as [|x t] eqn:E; [discriminate|]. intros _.
    destruct (forallb isSpace c) eqn:F.
    + apply trim_nil in F. congruence.
    + assert (Hn : ~ forallb isSpace c = true) by congruence.
      rewrite forallb_forall in Hn.
      destruct (existsb (fun y => negb (isSpace y)) c) eqn:X.
      * apply existsb_exists in X as [y [Hy Hs]]. exists y. split; [exact Hy|].
        destruct (isSpace y); [discriminate|reflexivity].
      * exfalso. apply Hn. intros y Hy.
        destruct (isSpace y) eqn:S; [reflexivity|].
        assert (existsb (fun y => negb (isSpace y)) c = true).
        { apply existsb_exists. exists y. rewrite S. auto. }
        congruence.
  - intros [x [Hx Hs]]. pose proof (trim_keeps c x Hx Hs) as H.
    destruct (trim c); [destruct H|reflexivity].
Qed.

(** The code units of the pieces of a split are those of the string
    that are not the separator. *)
Lemma splitOn_In sep s x :
  (exists piece, In piece (splitOn sep s) /\ In x piece)
  <-> In x s /\ x <> sep.
Proof.
  induction s as [|c s IH]; simpl.
  - split; [intros [piece [[<-|[]] []]]|intros [[] _]].
  - destruct (N.eqb_spec c sep) as [->|Hc].
    + split.
      * intros [piece [[<-|Hp] Hx]]; [destruct Hx|].
        destruct (proj1 IH (ex_intro _ piece (conj Hp Hx))) as [H1 H2]. auto.
      * intros [[->|Hx] Hn]; [congruence|].
        destruct (proj2 IH (conj Hx Hn)) as [piece [Hp Hxp]].
        exists piece. simpl. auto.
    + destruct (splitOn sep s) as [|p0 ps] eqn:E.
      * split.
        -- intros [piece [[<-|[]] [->|[]]]]. auto.
        -- intros [[->|Hx] Hn]; [exists [x]; simpl; auto|].
           destruct (proj2 IH (conj Hx Hn)) as [piece [[] _]].
      * split.
        -- intros [piece [[<-|Hp] Hx]].
           ++ destruct Hx as [->|Hx]; [auto|].
              destruct (proj1 IH (ex_intro _ p0 (conj (or_introl eq_refl) Hx))).
              auto.
           ++ destruct (proj1 IH (ex_intro _ piece (conj (or_intror Hp) Hx))).
              auto.
        -- intros [[->|Hx] Hn].
           ++ exists (x :: p0). simpl. auto.
           ++ destruct (proj2 IH (conj Hx Hn)) as [piece [[<-|Hp] Hxp]].
              ** exists (c :: p0). simpl. auto.
              ** exists piece. simpl. auto.
Qed.

Lemma splitOn_not_nil sep s : splitOn sep s <> [].
Proof.
  destruct s as [|c s]; simpl; [discriminate|].
  destruct (c =? sep)%N; [discriminate|].
  destruct (splitOn sep s); discriminate.
Qed.

End StringFacts.

(* ===================================================================== *)
(** ** The inline formatter *)
(* ===================================================================== *)

Section InlineFacts.

Lemma lazyClose_shorter s m rest :
  lazyClose s = Some (m, rest) -> length rest + 2 <= length s.
Proof.
  revert m rest; induction s as [|c r IH]; intros m rest;
    cbn [lazyClose].
  - cbn. discriminate.
  - destruct (startsWith bold (c :: r)) eqn:E.
    + intros H. assert (Hr : rest = skipn 2 (c :: r)) by congruence.
      apply startsWith_length in E. rewrite Hr, length_skipn.
      change (length bold) with 2 in E. lia.
    + destruct (isLineTerminator c); [discriminate|].
      destruct (lazyClose r) as [[m' rest']|]; [|discriminate].
      intros H. assert (Hr : rest = rest') by congruence. subst rest.
      specialize (IH _ _ eq_refl). cbn [length]. lia.
Qed.

Lemma boldMatch_shorter s m rest :
  boldMatch s = Some (m, rest) -> length rest < length s.
Proof.
  unfold boldMatch. destruct (startsWith bold s); [|discriminate].
  intros H%lazyClose_shorter. rewrite length_skipn in H. lia.
Qed.

Lemma lazyClose_unfold s :
  lazyClose s =
  if startsWith bold s then Some ([], skipn 2 s)
  else match s with
       | [] => None
       | c :: r =>
           if isLineTerminator c then None
           else match lazyClose r with
                | Some (m, rest) => Some (c :: m, rest)
                | None => None
                end
       end.
Proof. destruct s; reflexivity. Qed.

Lemma splitScan_nil acc : splitScan acc [] = [acc].
Proof. simp splitScan. reflexivity. Qed.

Lemma splitScan_cons acc c r :
  splitScan acc (c :: r) =
  match boldMatch (c :: r) with
  | Some (m, rest) => acc :: (bold ++ m ++ bold) :: splitScan [] rest
  | None => splitScan (acc ++ [c]) r
  end.
Proof.
  simp splitScan.
  destruct (inspect (boldMatch (c :: r))) as [[[m rest]|] e];
    simp splitScan; rewrite e; reflexivity.
Qed.

(** What the lazy run and the closing delimiter took. *)
Lemma lazyClose_sound s m rest :
  lazyClose s = Some (m, rest) ->
  s = m ++ bold ++ rest
  /\ Forall (fun c => isLineTerminator c = false) m
  /\ closesFirst m.
Proof.
  revert m rest; induction s as [|c r IH]; intros m rest;
    rewrite lazyClose_unfold.
  - cbn. discriminate.
  - destruct (startsWith bold (c :: r)) eqn:E.
    + intros H. assert (Hm : m = []) by congruence.
      assert (Hr : rest = skipn 2 (c :: r)) by congruence. subst m rest.
      apply startsWith_inv in E as [t E]. rewrite E.
      repeat split; [constructor|]. intros k Hk. inversion Hk.
    + destruct (isLineTerminator c) eqn:L; [discriminate|].
      destruct (lazyClose r) as [[m' rest']|] eqn:C; [|discriminate].
      intros H. assert (Hm : m = c :: m') by congruence.
      assert (Hr : rest = rest') by congruence. subst m rest.
      destruct (IH _ _ eq_refl) as [Hs [Hlt Hfirst]].
      repeat split.
      * rewrite Hs. reflexivity.
      * constructor; assumption.
      * intros [|k] Hk.
        -- cbn [skipn]. rewrite Hs in E.
           change (c :: m' ++ bold ++ rest') with ((c :: m') ++ bold ++ rest') in E.
           rewrite app_assoc in E.
           rewrite startsWith_app_r in E; [exact E|].
           rewrite length_app. cbn [length]. change (length bold) with 2. lia.
        -- cbn [skipn app]. apply Hfirst. cbn [length] in Hk. lia.
Qed.

Lemma boldMatch_sound s m rest :
  boldMatch s = Some (m, rest) ->
  s = bold ++ m ++ bold ++ rest
  /\ Forall (fun c => isLineTerminator c = false) m
  /\ closesFirst m.
Proof.
  unfold boldMatch. destruct (startsWith bold s) eqn:E; [|discriminate].
  apply startsWith_inv in E as [t ->].
  change (skipn 2 (bold ++ t)) with t.
  intros [-> H]%lazyClose_sound. split; [reflexivity|exact H].
Qed.

(** A match is rendered as an emphasized run without its delimiters. *)
Lemma renderPart_match m : renderPart (bold ++ m ++ bold) = Emphasized m.
Proof.
  unfold renderPart.
  rewrite startsWith_app, app_assoc, endsWith_app. cbn [andb].
  f_equal. unfold slice, clampIndex.
  rewrite !length_app. change (length bold) with 2.
  change (-2 <? 0)%Z with true. change (2 <? 0)%Z with false. cbv iota.
  replace (Nat.min (Z.to_nat 2) (2 + length m + 2)) with 2 by lia.
  replace (Z.to_nat (Z.max (Z.of_nat (2 + length m + 2) + -2) 0) - 2)
    with (length m) by lia.
  rewrite <- app_assoc. change (skipn 2 (bold ++ m ++ bold)) with (m ++ bold).
  rewrite firstn_app, Nat.sub_diag, firstn_all. cbn [firstn].
  apply app_nil_r.
Qed.

Lemma renderPart_plain o :
  startsWith bold o && endsWith bold o = false -> renderPart o = PlainText o.
Proof. unfold renderPart. intros ->. reflexivity. Qed.

Lemma matchWithin_app a n s :
  matchWithin (length a + n) (a ++ s)
  = matchWithin (length a) (a ++ s) || matchWithin n s.
Proof.
  induction a as [|c a IH]; [reflexivity|].
  cbn [length Nat.add app matchWithin].
  destruct (boldMatch (c :: a ++ s)); [reflexivity|exact IH].
Qed.

(** The scan of the split builds the spans of [Formats]. *)
Lemma splitScan_Formats s :
  forall acc,
    matchWithin (length acc) (acc ++ s) = false ->
    Formats (acc ++ s) (List.map renderPart (splitScan acc s)).
Proof.
  induction s as [s IH] using (induction_ltof1 _ (@length N)).
  unfold ltof in IH. intros acc Hacc. destruct s as [|c r].
  - rewrite splitScan_nil, app_nil_r in *. cbn [List.map].
    apply Formats_last; [exact Hacc|apply renderPart_plain].
  - rewrite splitScan_cons.
    destruct (boldMatch (c :: r)) as [[m rest]|] eqn:E.
    + pose proof (boldMatch_shorter _ _ _ E) as Hlen.
      destruct (boldMatch_sound _ _ _ E) as [Hs [Hlt Hfirst]].
      rewrite Hs in Hacc |- *. cbn [List.map]. rewrite renderPart_match.
      apply Formats_match; try assumption; [apply renderPart_plain|].
      apply (IH rest Hlen []). reflexivity.
    + replace (acc ++ c :: r) with ((acc ++ [c]) ++ r)
        by (rewrite <- app_assoc; reflexivity).
      apply IH; [cbn [length]; lia|].
      rewrite length_app. cbn [length].
      rewrite <- app_assoc. cbn [app].
      rewrite matchWithin_app, Hacc. cbn [orb matchWithin]. rewrite E.
      reflexivity.
Qed.

(** Without a match the split returns the text as its one piece. *)
Lemma splitScan_no_match s :
  forall acc, matchWithin (length s) s = false -> splitScan acc s = [acc ++ s].
Proof.
  induction s as [|c r IH]; intros acc H.
  - rewrite splitScan_nil, app_nil_r. reflexivity.
  - rewrite splitScan_cons. cbn [length matchWithin] in H.
    destruct (boldMatch (c :: r)); [discriminate|].
    rewrite IH by exact H. rewrite <- app_assoc. reflexivity.
Qed.

End InlineFacts.

(* ===================================================================== *)
(** ** Classification of a line *)
(* ===================================================================== *)

Section Classification.

Lemma startsWith_head a p c r : startsWith (a :: p) (c :: r) = true -> c = a.
Proof.
  simpl. intros [H _]%andb_true_iff. apply N.eqb_eq in H. auto.
Qed.

Lemma table_head l : isTableLine l = true -> exists r, l = 124%N :: r.
Proof.
  destruct l as [|c r]; [discriminate|]. intros H.
  apply startsWith_head in H. subst c. exists r. reflexivity.
Qed.

Lemma bullet_head l :
  isBulletLine l = true -> exists r, l = 42%N :: r \/ l = 45%N :: r.
Proof.
  destruct l as [|c r]; [discriminate|]. unfold isBulletLine.
  intros [H|H]%orb_true_iff; apply startsWith_head in H; subst c;
    exists r; auto.
Qed.

Lemma orderedMarker_digit c r :
  isDigit c = false -> orderedMarker (c :: r) = None.
Proof.
  intros H. unfold orderedMarker. cbn [dropWhile]. rewrite H.
  rewrite Nat.ltb_irrefl. reflexivity.
Qed.

Lemma ordered_head l :
  isOrderedLine l = true -> exists c r, l = c :: r /\ isDigit c = true.
Proof.
  destruct l as [|c r]; [discriminate|]. unfold isOrderedLine.
  destruct (isDigit c) eqn:D.
  - intros _. exists c, r. auto.
  - rewrite orderedMarker_digit by exact D. discriminate.
Qed.

Lemma heading3_head l : startsWith h3Mark l = true -> exists r, l = 35%N :: r.
Proof.
  destruct l as [|c r]; [discriminate|]. intros H.
  apply startsWith_head in H. subst c. exists r. reflexivity.
Qed.

Lemma heading2_head l : startsWith h2Mark l = true -> exists r, l = 35%N :: r.
Proof.
  destruct l as [|c r]; [discriminate|]. intros H.
  apply startsWith_head in H. subst c. exists r. reflexivity.
Qed.

(** The first code unit decides: a line satisfies at most one of the
    five tests of the loop. *)
Lemma table_only l :
  isTableLine l = true ->
  startsWith h3Mark l = false /\ startsWith h2Mark l = false
  /\ isBulletLine l = false /\ isOrderedLine l = false.
Proof.
  intros [r ->]%table_head. unfold isOrderedLine.
  rewrite orderedMarker_digit by reflexivity. repeat split.
Qed.

Lemma bullet_only l :
  isBulletLine l = true ->
  startsWith h3Mark l = false /\ startsWith h2Mark l = false
  /\ isTableLine l = false /\ isOrderedLine l = false.
Proof.
  intros [r [->| ->]]%bullet_head; unfold isOrderedLine;
    rewrite orderedMarker_digit by reflexivity; repeat split.
Qed.

Lemma digit_not c k : isDigit c = true -> isDigit k = false -> (k =? c)%N = false.
Proof.
  intros Hc Hk. destruct (N.eqb_spec k c) as [->|]; congruence.
Qed.

Lemma ordered_only l :
  isOrderedLine l = true ->
  startsWith h3Mark l = false /\ startsWith h2Mark l = false
  /\ isTableLine l = false /\ isBulletLine l = false.
Proof.
  intros [c [r [-> D]]]%ordered_head.
  unfold isTableLine, isBulletLine, h3Mark, h2Mark, pipe, starMark, dashMark.
  cbn [startsWith].
  rewrite !(digit_not c _ D) by reflexivity. repeat split.
Qed.

Lemma heading3_only l :
  startsWith h3Mark l = true ->
  isTableLine l = false /\ isBulletLine l = false /\ isOrderedLine l = false.
Proof.
  intros [r ->]%heading3_head. unfold isOrderedLine.
  rewrite orderedMarker_digit by reflexivity. repeat split.
Qed.

End Classification.

(* ===================================================================== *)
(** ** One iteration of the loop *)
(* ===================================================================== *)

Section Iteration.

Lemma whileRun_spec p f rest :
  forall i out,
    whileRun p f rest i out
    = ((i + Z.of_nat (length (runLines p rest)))%Z,
       out ++ List.map f (runLines p rest)).
Proof.
  induction rest as [|l rest IH]; intros i out; cbn [whileRun runLines].
  - cbn. rewrite Z.add_0_r, app_nil_r. reflexivity.
  - destruct (p (trim l)).
    + rewrite IH. cbn [length List.map]. rewrite <- app_assoc.
      f_equal. lia.
    + cbn. rewrite Z.add_0_r, app_nil_r. reflexivity.
Qed.

Lemma runLines_length p rest : length (runLines p rest) <= length rest.
Proof.
  induction rest as [|l rest IH]; cbn [runLines length]; [lia|].
  destruct (p (trim l)); cbn [length]; lia.
Qed.

Lemma runLines_head p l rest :
  p (trim l) = true -> 1 <= length (runLines p (l :: rest)).
Proof. intros H. cbn [runLines]. rewrite H. cbn [length]. lia. Qed.

(** Every iteration takes at least one line and no more than are left:
    each inner loop runs at least once. *)
Lemma taken_bounds l rest :
  1 <= taken (l :: rest) <= length (l :: rest).
Proof.
  pose proof (fun p => runLines_length p (l :: rest)) as Hle.
  pose proof (fun p => runLines_head p l rest) as Hge.
  unfold taken. cbn [length] in *.
  destruct (startsWith h3Mark (trim l)); [lia|].
  destruct (startsWith h2Mark (trim l)); [lia|].
  destruct (isTableLine (trim l)) eqn:T;
    [specialize (Hle isTableLine); specialize (Hge isTableLine T); lia|].
  destruct (isBulletLine (trim l)) eqn:B;
    [specialize (Hle isBulletLine); specialize (Hge isBulletLine B); lia|].
  destruct (isOrderedLine (trim l)) eqn:O;
    [specialize (Hle isOrderedLine); specialize (Hge isOrderedLine O); lia|].
  lia.
Qed.

Lemma lineAt_linesFrom lines i :
  (0 <= i)%Z -> lineAt lines i = hd_error (linesFrom lines i).
Proof.
  intros H. unfold lineAt, linesFrom.
  destruct (Z.ltb_spec i 0); [lia|]. symmetry. apply hd_error_skipn.
Qed.

Lemma linesFrom_add lines i k :
  (0 <= i)%Z ->
  linesFrom lines (i + Z.of_nat k) = skipn k (linesFrom lines i).
Proof.
  intros H. unfold linesFrom. rewrite skipn_skipn. f_equal. lia.
Qed.

Lemma linesFrom_length lines i :
  length (linesFrom lines i) = length lines - Z.to_nat i.
Proof. unfold linesFrom. apply length_skipn. Qed.

(** The body seen from the lines that are left at the cursor. *)
Lemma body_spec lines i nodes l rest :
  (0 <= i)%Z ->
  linesFrom lines i = l :: rest ->
  body lines i nodes
  = Some ((i + Z.of_nat (taken (l :: rest)) - 1)%Z, nodes ++ pushed (l :: rest)).
Proof.
  intros Hi Hrest. unfold body.
  rewrite (lineAt_linesFrom lines i Hi), Hrest. cbn [hd_error].
  unfold taken, pushed. cbv zeta.
  destruct (startsWith h3Mark (trim l)); [do 2 f_equal; lia|].
  destruct (startsWith h2Mark (trim l)); [do 2 f_equal; lia|].
  destruct (isTableLine (trim l)).
  { rewrite whileRun_spec. cbn [app]. rewrite map_id. unfold tableNode.
    destruct (2 <=? length (runLines isTableLine (l :: rest))).
    - rewrite map_map. reflexivity.
    - rewrite app_nil_r. reflexivity. }
  destruct (isBulletLine (trim l)).
  { rewrite whileRun_spec. cbn [app]. rewrite map_map. reflexivity. }
  destruct (isOrderedLine (trim l)).
  { rewrite whileRun_spec. cbn [app]. rewrite map_map. reflexivity. }
  destruct (0 <? length (trim l)).
  - do 2 f_equal. lia.
  - rewrite app_nil_r. do 2 f_equal. lia.
Qed.

End Iteration.

(* ===================================================================== *)
(** ** The loop *)
(* ===================================================================== *)

Section Loop.

Lemma forLoop_unfold fuel lines i nodes :
  forLoop fuel lines i nodes =
  if (i <? Z.of_nat (length lines))%Z then
    match fuel with
    | O => OutOfFuel
    | S fuel' =>
        match body lines i nodes with
        | None => Threw
        | Some (i', nodes') => forLoop fuel' lines (i' + 1)%Z nodes'
        end
    end
  else Returned nodes.
Proof. destruct fuel; reflexivity. Qed.

Lemma linesFrom_nil lines i :
  (0 <= i)%Z -> linesFrom lines i = [] ->
  (i <? Z.of_nat (length lines))%Z = false.
Proof.
  intros Hi H. apply (f_equal (@length _)) in H.
  rewrite linesFrom_length in H. cbn [length] in H.
  apply Z.ltb_ge. lia.
Qed.

Lemma linesFrom_cons lines i l rest :
  (0 <= i)%Z -> linesFrom lines i = l :: rest ->
  (i <? Z.of_nat (length lines))%Z = true.
Proof.
  intros Hi H. apply (f_equal (@length _)) in H.
  rewrite linesFrom_length in H. cbn [length] in H.
  apply Z.ltb_lt. lia.
Qed.

(** With one unit of fuel per line that is left, the loop returns the
    nodes it had followed by those of the lines left. *)
Lemma forLoop_Segments rest out :
  Segments rest out ->
  forall fuel lines i nodes,
    (0 <= i)%Z -> linesFrom lines i = rest -> length rest <= fuel ->
    forLoop fuel lines i nodes = Returned (nodes ++ out).
Proof.
  induction 1 as [|l rest out _ IH]; intros fuel lines i nodes Hi Hrest Hfuel;
    rewrite forLoop_unfold.
  - rewrite (linesFrom_nil lines i Hi Hrest), app_nil_r. reflexivity.
  - rewrite (linesFrom_cons lines i l rest Hi Hrest).
    destruct fuel as [|fuel]; [cbn [length] in Hfuel; lia|].
    rewrite (body_spec lines i nodes l rest Hi Hrest).
    pose proof (taken_bounds l rest) as [Hge Hle].
    rewrite app_assoc.
    apply IH.
    + lia.
    + replace (i + Z.of_nat (taken (l :: rest)) - 1 + 1)%Z
        with (i + Z.of_nat (taken (l :: rest)))%Z by lia.
      rewrite linesFrom_add by exact Hi. rewrite Hrest. reflexivity.
    + rewrite length_skipn. cbn [length] in *. lia.
Qed.

(** The scan of any list of lines is defined. *)
Lemma Segments_total rest : exists out, Segments rest out.
Proof.
  induction rest as [rest IH] using (induction_ltof1 _ (@length str)).
  unfold ltof in IH. destruct rest as [|l rest].
  - exists []. constructor.
  - pose proof (taken_bounds l rest) as [Hge Hle].
    destruct (IH (skipn (taken (l :: rest)) (l :: rest))) as [out Hout].
    + rewrite length_skipn. cbn [length] in *. lia.
    + exists (pushed (l :: rest) ++ out). constructor. exact Hout.
Qed.

Lemma Segments_fun rest a :
  Segments rest a -> forall b, Segments rest b -> a = b.
Proof.
  induction 1 as [|l rest out _ IH]; intros b Hb; inversion Hb; subst.
  - reflexivity.
  - f_equal. apply IH. assumption.
Qed.

Lemma renderLines_Segments lines out :
  Segments lines out -> renderLines lines = Returned out.
Proof.
  intros H. unfold renderLines.
  apply (forLoop_Segments lines out H (length lines) lines 0 []); [lia|reflexivity|lia].
Qed.

Lemma renderLines_inv lines out :
  renderLines lines = Returned out -> Segments lines out.
Proof.
  intros H. destruct (Segments_total lines) as [out' H'].
  rewrite (renderLines_Segments lines out' H') in H.
  assert (out' = out) by congruence. subst. exact H'.
Qed.

(** *** Runs and boundaries *)

Lemma runLines_stop p post :
  p (trim (hd [] post)) = false -> runLines p post = [].
Proof.
  destruct post as [|l post]; [reflexivity|]. cbn [hd runLines].
  intros ->. reflexivity.
Qed.

Lemma runLines_app p l pre post :
  runBreak p (l :: pre) post ->
  runLines p ((l :: pre) ++ post) = runLines p (l :: pre).
Proof.
  revert l; induction pre as [|l' pre IH]; intros l Hb.
  - unfold runBreak in Hb. cbn [last] in Hb. cbn [app runLines].
    destruct (p (trim l)); [|reflexivity].
    cbn [andb] in Hb. rewrite (runLines_stop p post Hb). reflexivity.
  - change ((l :: l' :: pre) ++ post) with (l :: (l' :: pre) ++ post).
    cbn [runLines]. destruct (p (trim l)); [|reflexivity].
    f_equal. apply IH. exact Hb.
Qed.

(** A run made of all the lines of [run], then a line that ends it. *)
Lemma runLines_all p run post :
  Forall (fun l => p (trim l) = true) run ->
  p (trim (hd [] post)) = false ->
  runLines p (run ++ post) = List.map trim run.
Proof.
  intros Hall Hpost. induction Hall as [|l run Hl _ IH]; cbn [app runLines List.map].
  - apply runLines_stop. exact Hpost.
  - rewrite Hl, IH. reflexivity.
Qed.

Lemma taken_app l pre post :
  noRunAcross (l :: pre) post ->
  taken ((l :: pre) ++ post) = taken (l :: pre).
Proof.
  intros (Ht & Hb & Ho). unfold taken. cbn [app].
  change (l :: pre ++ post) with ((l :: pre) ++ post).
  rewrite !runLines_app by assumption. reflexivity.
Qed.

Lemma pushed_app l pre post :
  noRunAcross (l :: pre) post ->
  pushed ((l :: pre) ++ post) = pushed (l :: pre).
Proof.
  intros (Ht & Hb & Ho). unfold pushed. cbn [app].
  change (l :: pre ++ post) with ((l :: pre) ++ post).
  rewrite !runLines_app by assumption. reflexivity.
Qed.

Lemma last_skipn (d : str) k (l : list str) :
  skipn k l <> [] -> last (skipn k l) d = last l d.
Proof.
  revert l; induction k as [|k IH]; intros l H; [reflexivity|].
  destruct l as [|x l]; [reflexivity|]. cbn [skipn] in *.
  rewrite (IH l H). destruct l as [|y l]; [|reflexivity].
  rewrite skipn_nil in H. congruence.
Qed.

Lemma noRunAcross_skipn k pre post :
  noRunAcross pre post -> noRunAcross (skipn k pre) post.
Proof.
  unfold noRunAcross, runBreak.
  destruct (skipn k pre) as [|x t] eqn:E.
  - intros _. repeat split.
  - rewrite <- E. rewrite last_skipn by congruence. auto.
Qed.

(** Where no run crosses, the nodes of a list of lines are those of its
    first part followed by those of the rest. *)
Lemma Segments_app pre a :
  Segments pre a ->
  forall post b,
    noRunAcross pre post -> Segments post b ->
    Segments (pre ++ post) (a ++ b).
Proof.
  induction 1 as [|l rest out _ IH]; intros post b Hcross Hpost.
  - exact Hpost.
  - rewrite <- app_assoc, <- (pushed_app l rest post Hcross).
    change ((l :: rest) ++ post) with (l :: rest ++ post).
    apply Segments_step.
    change (l :: rest ++ post) with ((l :: rest) ++ post).
    rewrite (taken_app l rest post Hcross).
    pose proof (taken_bounds l rest) as [_ Hle].
    rewrite skipn_app.
    replace (taken (l :: rest) - length (l :: rest)) with 0 by lia.
    cbn [skipn]. apply IH; [|exact Hpost].
    apply noRunAcross_skipn. exact Hcross.
Qed.

End Loop.

(* ===================================================================== *)
(** ** Runs of the grouping branches *)
(* ===================================================================== *)

Section Runs.

Lemma taken_run p l rest :
  In p [isTableLine; isBulletLine; isOrderedLine] ->
  p (trim l) = true ->
  taken (l :: rest) = length (runLines p (l :: rest)).
Proof.
  intros Hp Hl. unfold taken. cbv zeta.
  destruct Hp as [<-|[<-|[<-|[]]]].
  - destruct (table_only _ Hl) as (-> & -> & _). rewrite Hl. reflexivity.
  - destruct (bullet_only _ Hl) as (-> & -> & -> & _). rewrite Hl. reflexivity.
  - destruct (ordered_only _ Hl) as (-> & -> & -> & ->). rewrite Hl. reflexivity.
Qed.

Lemma runLines_inside p rest k :
  k < length (runLines p rest) ->
  exists l, nth_error rest k = Some l /\ p (trim l) = true.
Proof.
  revert k; induction rest as [|l rest IH]; intros k; cbn [runLines].
  - cbn. lia.
  - destruct (p (trim l)) eqn:E; [|cbn; lia]. cbn [length]. intros Hk.
    destruct k as [|k]; [exists l; auto|]. cbn [nth_error]. apply IH. lia.
Qed.

Lemma runLines_after p rest l :
  nth_error rest (length (runLines p rest)) = Some l -> p (trim l) = false.
Proof.
  induction rest as [|x rest IH]; cbn [runLines].
  - cbn. discriminate.
  - destruct (p (trim x)) eqn:E; cbn [length nth_error].
    + exact IH.
    + congruence.
Qed.

Lemma lineAt_offset lines i k :
  (0 <= i)%Z -> lineAt lines (i + Z.of_nat k) = nth_error (linesFrom lines i) k.
Proof.
  intros Hi. rewrite lineAt_linesFrom by lia.
  rewrite linesFrom_add by exact Hi. apply hd_error_skipn.
Qed.

Lemma lineAt_cons lines i raw :
  (0 <= i)%Z -> lineAt lines i = Some raw ->
  exists rest, linesFrom lines i = raw :: rest.
Proof.
  intros Hi H. rewrite lineAt_linesFrom in H by exact Hi.
  destruct (linesFrom lines i) as [|l rest]; [discriminate|].
  exists rest. cbn in H. congruence.
Qed.

Lemma skipn_run (run post : list str) : skipn (length run) (run ++ post) = post.
Proof.
  rewrite skipn_app, skipn_all, Nat.sub_diag. reflexivity.
Qed.

(** A run of table lines between two lines that are not: the nodes
    before, the table of the run if there is one, the nodes after. *)
Lemma table_run_Segments pre l run post a b :
  Forall (fun x => isTableLine (trim x) = true) (l :: run) ->
  isTableLine (trim (last pre [])) = false ->
  isTableLine (trim (hd [] post)) = false ->
  Segments pre a -> Segments post b ->
  Segments (pre ++ (l :: run) ++ post)
           (a ++ tableNode (List.map trim (l :: run)) ++ b).
Proof.
  intros Hall Hpre Hpost Ha Hb.
  assert (Hl : isTableLine (trim l) = true) by (inversion Hall; assumption).
  destruct (table_only _ Hl) as (H3 & H2 & HB & HO).
  apply Segments_app; [exact Ha| |].
  - unfold noRunAcross, runBreak. cbn [app hd].
    rewrite Hpre, HB, HO, !andb_false_r. auto.
  - assert (Hrun : runLines isTableLine ((l :: run) ++ post)
                   = List.map trim (l :: run))
      by (apply runLines_all; assumption).
    replace (tableNode (List.map trim (l :: run)))
      with (pushed ((l :: run) ++ post)).
    2:{ unfold pushed. cbn [app]. cbv zeta. rewrite H3, H2, Hl.
        change (l :: run ++ post) with ((l :: run) ++ post).
        rewrite Hrun. reflexivity. }
    change ((l :: run) ++ post) with (l :: run ++ post).
    apply Segments_step.
    replace (taken (l :: run ++ post)) with (length (l :: run)).
    + change (l :: run ++ post) with ((l :: run) ++ post).
      rewrite skipn_run. exact Hb.
    + unfold taken. cbv zeta. rewrite H3, H2, Hl.
      change (l :: run ++ post) with ((l :: run) ++ post).
      rewrite Hrun, length_map. reflexivity.
Qed.

(** A level-3 heading line between any lines. *)
Lemma heading3_Segments pre l post a b :
  startsWith h3Mark (trim l) = true ->
  Segments pre a -> Segments post b ->
  Segments (pre ++ l :: post)
           (a ++ [Heading 3 [PlainText (substring 4 (trim l))]] ++ b).
Proof.
  intros Hl Ha Hb.
  destruct (heading3_only _ Hl) as (HT & HB & HO).
  apply Segments_app; [exact Ha| |].
  - unfold noRunAcross, runBreak. cbn [hd].
    rewrite HT, HB, HO, !andb_false_r. auto.
  - replace [Heading 3 [PlainText (substring 4 (trim l))]]
      with (pushed (l :: post))
      by (unfold pushed; cbv zeta; rewrite Hl; reflexivity).
    apply Segments_step.
    replace (taken (l :: post)) with 1
      by (unfold taken; cbv zeta; rewrite Hl; reflexivity).
    exact Hb.
Qed.

(** From the scan of the parts to the renderer on the whole. *)
Lemma render_parts pre mid post nodes :
  (forall a b, Segments pre a -> Segments post b ->
               Segments (pre ++ mid ++ post) (a ++ nodes ++ b)) ->
  exists a b,
    renderLines pre = Returned a /\ renderLines post = Returned b
    /\ renderLines (pre ++ mid ++ post) = Returned (a ++ nodes ++ b).
Proof.
  intros H.
  destruct (Segments_total pre) as [a Ha].
  destruct (Segments_total post) as [b Hb].
  exists a, b. repeat split; apply renderLines_Segments; auto.
Qed.

(** A table has headers exactly when its first line holds something
    else than pipes and white space. *)
Lemma tableCells_nil r :
  tableCells r <> [] <->
  exists x, In x r /\ x <> 124%N /\ isSpace x = false.
Proof.
  unfold tableCells. split.
  - destruct (filter nonBlank (splitOn 124 r)) as [|piece t] eqn:E;
      [intros H; exfalso; apply H; reflexivity|]. intros _.
    assert (Hin : In piece (filter nonBlank (splitOn 124 r)))
      by (rewrite E; left; reflexivity).
    apply filter_In in Hin as [Hin Hnb].
    apply nonBlank_spec in Hnb as [x [Hx Hs]].
    destruct (proj1 (splitOn_In 124 r x)) as [Hr Hne];
      [exists piece; auto|].
    exists x. auto.
  - intros [x (Hx & Hne & Hs)].
    destruct (proj2 (splitOn_In 124 r x) (conj Hx Hne)) as [piece [Hp Hxp]].
    assert (Hin : In piece (filter nonBlank (splitOn 124 r))).
    { apply filter_In. split; [exact Hp|].
      apply nonBlank_spec. exists x. auto. }
    destruct (filter nonBlank (splitOn 124 r)); [destruct Hin|].
    cbn [List.map]. discriminate.
Qed.

(** No cell of a row is the empty string. *)
Lemma tableCells_nonempty r : Forall (fun c => c <> []) (tableCells r).
Proof.
  unfold tableCells. apply Forall_forall. intros c Hc.
  apply in_map_iff in Hc as [piece [<- Hp]].
  apply filter_In in Hp as [_ Hnb]. unfold nonBlank in Hnb.
  destruct (trim piece); [discriminate|discriminate].
Qed.

Lemma slice_inner text :
  2 <= length text ->
  slice 2 (-2) text = firstn (length text - 4) (skipn 2 text).
Proof.
  intros H. unfold slice, clampIndex.
  change (-2 <? 0)%Z with true. change (2 <? 0)%Z with false. cbv iota.
  replace (Nat.min (Z.to_nat 2) (length text)) with 2 by lia.
  f_equal. lia.
Qed.

End Runs.

(* ===================================================================== *)
(** ** Properties of the inline formatter *)
(* ===================================================================== *)

(** C5, as the code has it: the formatter returns one span per piece of
    the split, a piece outside the matches (possibly empty) first and
    last, pieces and matches alternating.  A match becomes an emphasized
    span without its delimiters; a piece that does not both start and end
    with the delimiter becomes a plain text span.  For
    "**Warning**: drowsiness" the spans are the empty plain text, the
    emphasized "Warning" and the plain text ": drowsiness". *)
Theorem renderInline_spans :
  (forall text, Formats text (renderInline text))
  /\ renderInline (lit "**Warning**: drowsiness")
     = [PlainText []; Emphasized (lit "Warning"); PlainText (lit ": drowsiness")].
Proof.
  split; [|reflexivity].
  intros text. unfold renderInline, splitBold.
  apply (splitScan_Formats text []). reflexivity.
Qed.

(** C5 as stated fails: the formatter does not return exactly the two
    spans for "**Warning**: drowsiness". *)
Lemma renderInline_not_two_spans :
  renderInline (lit "**Warning**: drowsiness")
  <> [Emphasized (lit "Warning"); PlainText (lit ": drowsiness")].
Proof. discriminate. Qed.

(** C6 on the code: the sample "a ** b" comes out as one plain text span,
    but a delimiter alone, or a stray delimiter left after a match, comes
    out as an emphasized span of the empty string and its two asterisks
    are lost. *)
Theorem renderInline_stray_delimiter :
  renderInline (lit "a ** b") = [PlainText (lit "a ** b")]
  /\ renderInline (lit "**") <> [PlainText (lit "**")]
  /\ renderInline (lit "**x****")
     = [PlainText []; Emphasized (lit "x"); Emphasized []].
Proof. repeat split. discriminate. Qed.

(* ===================================================================== *)
(** ** Properties of the block segmenter *)
(* ===================================================================== *)

(** C8: the renderer returns on every content, the empty one included:
    one iteration per line is enough fuel and more fuel changes nothing;
    every iteration leaves the cursor so that the loop moves it forward by
    at least one line and not beyond the end, and the inner loop of a
    grouping branch, entered on a line that satisfies its test, takes at
    least that line. *)
Theorem MarkdownRenderer_total :
  (forall content, exists doc,
      MarkdownRenderer content = Returned doc
      /\ forall fuel, length (splitOn 10 content) <= fuel ->
                      forLoop fuel (splitOn 10 content) 0 [] = Returned doc)
  /\ MarkdownRenderer [] = Returned []
  /\ (forall lines i nodes,
         (0 <= i < Z.of_nat (length lines))%Z ->
         exists i' nodes',
           body lines i nodes = Some (i', nodes')
           /\ (i < i' + 1 <= Z.of_nat (length lines))%Z)
  /\ (forall p f l rest i out,
         p (trim l) = true ->
         (i + 1 <= fst (whileRun p f (l :: rest) i out))%Z).
Proof.
  split; [|split; [reflexivity|split]].
  - intros content.
    destruct (Segments_total (splitOn 10 content)) as [doc Hdoc].
    exists doc. split.
    + apply renderLines_Segments. exact Hdoc.
    + intros fuel Hfuel.
      apply (forLoop_Segments _ _ Hdoc fuel (splitOn 10 content) 0 []);
        [lia|reflexivity|exact Hfuel].
  - intros lines i nodes Hi.
    destruct (linesFrom lines i) as [|l rest] eqn:E.
    + apply (f_equal (@length _)) in E. rewrite linesFrom_length in E.
      cbn [length] in E. lia.
    + pose proof (taken_bounds l rest) as [Hge Hle].
      assert (Hlen : length (l :: rest) = length lines - Z.to_nat i)
        by (rewrite <- E; apply linesFrom_length).
      exists (i + Z.of_nat (taken (l :: rest)) - 1)%Z, (nodes ++ pushed (l :: rest)).
      split; [apply body_spec; [lia|exact E]|]. lia.
  - intros p f l rest i out Hl. rewrite whileRun_spec. cbn [fst].
    pose proof (runLines_head p l rest Hl). lia.
Qed.

Lemma MarkdownRenderer_total_witness :
  (exists doc,
      MarkdownRenderer (lit "no markup") = Returned doc
      /\ forLoop 7 (splitOn 10 (lit "no markup")) 0 [] = Returned doc)
  /\ (exists i' nodes',
         body [lit "| a |"; lit "| b |"; lit "c"] 0 [] = Some (i', nodes')
         /\ (0 < i' + 1 <= 3)%Z)
  /\ (0 + 1 <= fst (whileRun isTableLine (fun l => l) [lit "| a |"; lit "c"] 0 []))%Z.
Proof.
  split; [|split].
  - destruct (proj1 MarkdownRenderer_total (lit "no markup")) as [doc [H1 H2]].
    exists doc. split; [exact H1|]. apply H2. cbn. lia.
  - apply (proj1 (proj2 (proj2 MarkdownRenderer_total))
             [lit "| a |"; lit "| b |"; lit "c"] 0%Z []).
    cbn. lia.
  - apply (proj2 (proj2 (proj2 MarkdownRenderer_total))
             isTableLine (fun l => l) (lit "| a |") [lit "c"] 0%Z []).
    reflexivity.
Defined.

(** C3: in a grouping branch (table, unordered list, ordered list) entered
    at cursor [i], if [n] consecutive lines from [i] satisfy the test of
    the run, then [n >= 1], the body leaves the cursor at [i + n - 1] and
    the loop resumes at [i + n], not [i + n + 1]: the lines [i .. i+n-1]
    satisfy the test and the line at [i + n], if there is one, does not,
    and it is the line the next iteration classifies.  "* a\n* b\nplain"
    gives the list of "a" and "b" and then the paragraph "plain". *)
Theorem run_cursor :
  (forall lines i nodes raw p,
      (0 <= i)%Z ->
      lineAt lines i = Some raw ->
      In p [isTableLine; isBulletLine; isOrderedLine] ->
      p (trim raw) = true ->
      let n := length (runLines p (linesFrom lines i)) in
      1 <= n
      /\ (exists nodes',
             body lines i nodes = Some ((i + Z.of_nat n - 1)%Z, nodes')
             /\ forall fuel,
                 forLoop (S fuel) lines i nodes
                 = forLoop fuel lines (i + Z.of_nat n)%Z nodes')
      /\ (forall k, k < n ->
                    exists l, lineAt lines (i + Z.of_nat k) = Some l
                              /\ p (trim l) = true)
      /\ (forall l, lineAt lines (i + Z.of_nat n) = Some l -> p (trim l) = false))
  /\ MarkdownRenderer (unlines ["* a"; "* b"; "plain"]%string)
     = Returned [UnorderedList [[PlainText (lit "a")]; [PlainText (lit "b")]];
                 Paragraph [PlainText (lit "plain")]].
Proof.
  split; [|reflexivity].
  intros lines i nodes raw p Hi Hraw Hp Hl n.
  destruct (lineAt_cons lines i raw Hi Hraw) as [rest Hrest].
  assert (Htaken : taken (raw :: rest) = n)
    by (unfold n; rewrite Hrest; apply taken_run; assumption).
  repeat split.
  - unfold n. rewrite Hrest. apply runLines_head. exact Hl.
  - exists (nodes ++ pushed (raw :: rest)).
    assert (Hbody : body lines i nodes
                    = Some ((i + Z.of_nat n - 1)%Z, nodes ++ pushed (raw :: rest)))
      by (rewrite <- Htaken; apply body_spec; assumption).
    split; [exact Hbody|]. intros fuel.
    rewrite (forLoop_unfold (S fuel)), Hbody.
    rewrite (linesFrom_cons lines i raw rest Hi Hrest).
    f_equal. lia.
  - intros k Hk. rewrite lineAt_offset by exact Hi.
    apply runLines_inside. exact Hk.
  - intros l. rewrite lineAt_offset by exact Hi. apply runLines_after.
Qed.

Lemma run_cursor_witness :
  let lines := [lit "intro"; lit "* a"; lit " - b"; lit "plain"] in
  (0 <= 1)%Z
  /\ lineAt lines 1 = Some (lit "* a")
  /\ isBulletLine (trim (lit "* a")) = true
  /\ length (runLines isBulletLine (linesFrom lines 1)) = 2
  /\ (exists nodes',
         body lines 1 [] = Some (2%Z, nodes')
         /\ forall fuel, forLoop (S fuel) lines 1 [] = forLoop fuel lines 3 nodes')
  /\ (forall l, lineAt lines 3 = Some l -> isBulletLine (trim l) = false).
Proof.
  intros lines.
  destruct (proj1 run_cursor lines 1%Z [] (lit "* a") isBulletLine)
    as (_ & Hbody & _ & Hafter);
    [lia|reflexivity|right; left; reflexivity|reflexivity|].
  split; [lia|]. split; [reflexivity|]. split; [reflexivity|].
  split; [reflexivity|]. split; [exact Hbody|exact Hafter].
Defined.

(** C1: a pipe-prefixed line on its own, between lines that are not
    pipe-prefixed (or at an end of the text), leaves no node: the nodes of
    the content are those of the lines before followed by those of the
    lines after, nothing in between, not even a paragraph.  In the loop,
    a table branch that collects fewer than two lines leaves the nodes as
    they were.  "| lone row |" gives the empty document. *)
Theorem lone_table_row_dropped :
  (forall content pre l post,
      splitOn 10 content = pre ++ l :: post ->
      isTableLine (trim l) = true ->
      isTableLine (trim (last pre [])) = false ->
      isTableLine (trim (hd [] post)) = false ->
      exists a b,
        renderLines pre = Returned a /\ renderLines post = Returned b
        /\ MarkdownRenderer content = Returned (a ++ b))
  /\ (forall lines i nodes raw,
         (0 <= i)%Z ->
         lineAt lines i = Some raw ->
         isTableLine (trim raw) = true ->
         length (runLines isTableLine (linesFrom lines i)) < 2 ->
         exists i', body lines i nodes = Some (i', nodes))
  /\ MarkdownRenderer (lit "| lone row |") = Returned [].
Proof.
  split; [|split; [|reflexivity]].
  - intros content pre l post Hsplit Hl Hpre Hpost.
    unfold MarkdownRenderer. rewrite Hsplit.
    apply (render_parts pre [l] post []).
    intros a b Ha Hb.
    apply (table_run_Segments pre l [] post a b); auto.
  - intros lines i nodes raw Hi Hraw Hl Hshort.
    destruct (lineAt_cons lines i raw Hi Hraw) as [rest Hrest].
    rewrite Hrest in Hshort.
    exists (i + Z.of_nat (taken (raw :: rest)) - 1)%Z.
    rewrite (body_spec lines i nodes raw rest Hi Hrest).
    destruct (table_only _ Hl) as (H3 & H2 & _).
    unfold pushed. cbv zeta. rewrite H3, H2, Hl. unfold tableNode.
    apply Nat.leb_gt in Hshort. rewrite Hshort, app_nil_r. reflexivity.
Qed.

Lemma lone_table_row_dropped_witness :
  (exists a b,
      renderLines [lit "Dose:"] = Returned a
      /\ renderLines [lit "Take with food."] = Returned b
      /\ MarkdownRenderer (unlines ["Dose:"; "| lone row |"; "Take with food."]%string)
         = Returned (a ++ b))
  /\ (exists i',
         body [lit "Dose:"; lit "| lone row |"; lit "Take with food."] 1
              [Paragraph [PlainText (lit "Dose:")]]
         = Some (i', [Paragraph [PlainText (lit "Dose:")]])).
Proof.
  split.
  - apply (proj1 lone_table_row_dropped
             (unlines ["Dose:"; "| lone row |"; "Take with food."]%string)
             [lit "Dose:"] (lit "| lone row |") [lit "Take with food."]);
      reflexivity.
  - apply (proj1 (proj2 lone_table_row_dropped)
             [lit "Dose:"; lit "| lone row |"; lit "Take with food."] 1%Z
             [Paragraph [PlainText (lit "Dose:")]] (lit "| lone row |"));
      [lia|reflexivity|reflexivity|vm_compute; lia].
Defined.

(** C2: a run of two or more pipe-prefixed lines gives one table.  Its
    headers are the cells of the first line (the line split on the pipe,
    the pieces that are empty once trimmed dropped, the others trimmed),
    kept as strings; the second line is dropped whatever it holds; its
    rows are the cells of the lines from the third on, each cell passed
    through the inline formatter. *)
Theorem table_of_run :
  forall content pre l0 l1 more post,
    splitOn 10 content = pre ++ (l0 :: l1 :: more) ++ post ->
    Forall (fun x => isTableLine (trim x) = true) (l0 :: l1 :: more) ->
    isTableLine (trim (last pre [])) = false ->
    isTableLine (trim (hd [] post)) = false ->
    exists a b,
      renderLines pre = Returned a /\ renderLines post = Returned b
      /\ MarkdownRenderer content
         = Returned
             (a ++ [Table (List.map trim
                             (List.filter nonBlank (splitOn 124 (trim l0))))
                          (List.map
                             (fun r => List.map renderInline
                                         (List.map trim
                                            (List.filter nonBlank
                                               (splitOn 124 (trim r)))))
                             more)]
                ++ b).
Proof.
  intros content pre l0 l1 more post Hsplit Hall Hpre Hpost.
  unfold MarkdownRenderer. rewrite Hsplit.
  apply render_parts. intros a b Ha Hb.
  pose proof (table_run_Segments pre l0 (l1 :: more) post a b
                Hall Hpre Hpost Ha Hb) as H.
  unfold tableNode in H. cbn [List.map length Nat.leb nth skipn] in H.
  rewrite map_map in H. exact H.
Qed.

Lemma table_of_run_witness :
  exists a b,
    renderLines [lit "### Usage Instructions"] = Returned a
    /\ renderLines [lit "Disclaimer"] = Returned b
    /\ MarkdownRenderer
         (unlines ["### Usage Instructions"; "| Feature | Details |";
                   "| not a separator |"; "| Food | **After** meal |";
                   "Disclaimer"]%string)
       = Returned
           (a ++ [Table [lit "Feature"; lit "Details"]
                        [[[PlainText (lit "Food")];
                          [PlainText []; Emphasized (lit "After");
                           PlainText (lit " meal")]]]]
              ++ b).
Proof.
  apply (table_of_run
           (unlines ["### Usage Instructions"; "| Feature | Details |";
                     "| not a separator |"; "| Food | **After** meal |";
                     "Disclaimer"]%string)
           [lit "### Usage Instructions"] (lit "| Feature | Details |")
           (lit "| not a separator |") [lit "| Food | **After** meal |"]
           [lit "Disclaimer"]);
    [reflexivity|repeat constructor|reflexivity|reflexivity].
Defined.

(** C4, as the code has it: a line whose trimmed form starts with "### "
    gives exactly one level-3 heading, whatever the lines around it, and
    its text is the rest of the trimmed line after the four code units of
    the marker, as one plain text run: the inline formatter is not applied.
    "### Conditions Treated" gives the one heading "Conditions Treated". *)
Theorem heading3_literal :
  (forall content pre l post,
      splitOn 10 content = pre ++ l :: post ->
      startsWith h3Mark (trim l) = true ->
      exists a b,
        renderLines pre = Returned a /\ renderLines post = Returned b
        /\ MarkdownRenderer content
           = Returned (a ++ [Heading 3 [PlainText (substring 4 (trim l))]] ++ b))
  /\ MarkdownRenderer (lit "### Conditions Treated")
     = Returned [Heading 3 [PlainText (lit "Conditions Treated")]].
Proof.
  split; [|reflexivity].
  intros content pre l post Hsplit Hl.
  unfold MarkdownRenderer. rewrite Hsplit.
  apply (render_parts pre [l] post).
  intros a b Ha Hb. apply heading3_Segments; assumption.
Qed.

Lemma heading3_literal_witness :
  exists a b,
    renderLines [lit "* a"] = Returned a /\ renderLines [lit "* b"] = Returned b
    /\ MarkdownRenderer (unlines ["* a"; "  ### **Dose** "; "* b"]%string)
       = Returned (a ++ [Heading 3 [PlainText (lit "**Dose**")]] ++ b).
Proof.
  apply (proj1 heading3_literal
           (unlines ["* a"; "  ### **Dose** "; "* b"]%string)
           [lit "* a"] (lit "  ### **Dose** ") [lit "* b"]);
    reflexivity.
Defined.

(** C4 as stated fails: the text of the heading of "### **Dose**" is not
    what the inline formatter returns on "**Dose**". *)
Lemma heading3_not_formatted :
  MarkdownRenderer (lit "### **Dose**")
  <> Returned [Heading 3 (renderInline (lit "**Dose**"))].
Proof. discriminate. Qed.

(** C7, as the code has it: the table of a run of exactly two
    pipe-prefixed lines has no rows; its headers are the cells of the
    first line, and there is one exactly when that line holds a code unit
    that is neither a pipe nor white space. *)
Theorem table_of_two_lines :
  forall content pre l0 l1 post,
    splitOn 10 content = pre ++ [l0; l1] ++ post ->
    isTableLine (trim l0) = true ->
    isTableLine (trim l1) = true ->
    isTableLine (trim (last pre [])) = false ->
    isTableLine (trim (hd [] post)) = false ->
    (exists a b,
        renderLines pre = Returned a /\ renderLines post = Returned b
        /\ MarkdownRenderer content
           = Returned (a ++ [Table (tableCells (trim l0)) []] ++ b))
    /\ (tableCells (trim l0) <> []
        <-> exists x, In x l0 /\ x <> 124%N /\ isSpace x = false).
Proof.
  intros content pre l0 l1 post Hsplit H0 H1 Hpre Hpost. split.
  - unfold MarkdownRenderer. rewrite Hsplit.
    apply render_parts. intros a b Ha Hb.
    apply (table_run_Segments pre l0 [l1] post a b); auto.
  - rewrite tableCells_nil. split; intros [x (Hx & Hne & Hs)]; exists x.
    + split; [apply trim_In; exact Hx|auto].
    + split; [apply trim_keeps; assumption|auto].
Qed.

Lemma table_of_two_lines_witness :
  (exists a b,
      renderLines [] = Returned a /\ renderLines [lit "end"] = Returned b
      /\ MarkdownRenderer (unlines ["| Feature |"; "|---|"; "end"]%string)
         = Returned (a ++ [Table (tableCells (trim (lit "| Feature |"))) []] ++ b))
  /\ (tableCells (trim (lit "| Feature |")) <> []
      <-> exists x, In x (lit "| Feature |") /\ x <> 124%N /\ isSpace x = false).
Proof.
  apply (table_of_two_lines
           (unlines ["| Feature |"; "|---|"; "end"]%string)
           [] (lit "| Feature |") (lit "|---|") [lit "end"]);
    reflexivity.
Defined.

(** C7 as stated fails: the two lines "|" and "|" give a table, and its
    headers are empty. *)
Lemma table_of_two_lines_no_header :
  ~ (forall headers rows,
        MarkdownRenderer (unlines ["|"; "|"]%string) = Returned [Table headers rows] ->
        rows = [] /\ headers <> []).
Proof.
  intros H. destruct (H [] [] eq_refl) as [_ Hh]. apply Hh. reflexivity.
Qed.

(** C10: the cells of a row are never empty strings, a piece that is empty
    once trimmed is deleted, and nothing relates the number of cells of a
    row to the number of headers: under three headers the row
    "| a |  | b |" has the two cells "a" and "b". *)
Theorem table_row_width_not_enforced :
  (forall r, Forall (fun c => c <> []) (tableCells r))
  /\ tableCells (lit "| a |  | b |") = [lit "a"; lit "b"]
  /\ MarkdownRenderer
       (unlines ["| h1 | h2 | h3 |"; "|---|---|---|"; "| a |  | b |"]%string)
     = Returned [Table [lit "h1"; lit "h2"; lit "h3"]
                       [[[PlainText (lit "a")]; [PlainText (lit "b")]]]].
Proof.
  split; [exact tableCells_nonempty|]. split; reflexivity.
Qed.

(* ===================================================================== *)
(** ** More on the string operations *)
(* ===================================================================== *)

Section MoreStringFacts.

(** What [dropWhile] removes and what it leaves. *)
Lemma dropWhile_split p s :
  exists w, s = w ++ dropWhile p s /\ forallb p w = true.
Proof.
  induction s as [|c s [w [Hs Hw]]]; [exists []; auto|]. cbn [dropWhile].
  destruct (p c) eqn:E.
  - exists (c :: w). cbn [forallb app]. rewrite E, Hw, <- Hs. auto.
  - exists []. auto.
Qed.

Lemma dropWhile_head p s c t : dropWhile p s = c :: t -> p c = false.
Proof.
  induction s as [|x s IH]; cbn [dropWhile]; [discriminate|].
  destruct (p x) eqn:E; [exact IH|]. intros H.
  assert (x = c) by congruence. subst. exact E.
Qed.

Lemma dropWhile_fixed p s :
  (forall c t, s = c :: t -> p c = false) -> dropWhile p s = s.
Proof.
  destruct s as [|c t]; [reflexivity|]. intros H. cbn [dropWhile].
  rewrite (H c t eq_refl). reflexivity.
Qed.

Lemma dropWhile_app_stop p w c r :
  forallb p w = true -> p c = false -> dropWhile p (w ++ c :: r) = c :: r.
Proof.
  intros Hw Hc. induction w as [|x w IH]; cbn [app dropWhile].
  - rewrite Hc. reflexivity.
  - cbn [forallb] in Hw. apply andb_true_iff in Hw as [-> Hw]. auto.
Qed.

(** Trimming a trimmed string changes nothing. *)
Lemma trim_idempotent s : trim (trim s) = trim s.
Proof.
  unfold trim, trimEnd, trimStart.
  set (u := dropWhile isSpace s).
  set (v := dropWhile isSpace (rev u)).
  assert (Hstart : dropWhile isSpace (rev v) = rev v).
  { apply dropWhile_fixed. intros c t Hv.
    destruct (dropWhile_split isSpace (rev u)) as [w [Hu _]].
    fold v in Hu. apply (f_equal (@rev N)) in Hu.
    rewrite rev_involutive, rev_app_distr, Hv in Hu.
    apply (dropWhile_head isSpace s c (t ++ rev w)). exact Hu. }
  rewrite Hstart, rev_involutive. f_equal.
  apply dropWhile_fixed. intros c t Hv.
  apply (dropWhile_head isSpace (rev u) c t). exact Hv.
Qed.

End MoreStringFacts.

(* ===================================================================== *)
(** ** More on the inline formatter *)
(* ===================================================================== *)

Section MoreInlineFacts.

Lemma splitScan_concat s :
  forall acc, concat (splitScan acc s) = acc ++ s.
Proof.
  induction s as [s IH] using (induction_ltof1 _ (@length N)).
  unfold ltof in IH. intros acc. destruct s as [|c r].
  - rewrite splitScan_nil. cbn [concat]. rewrite app_nil_r. reflexivity.
  - rewrite splitScan_cons.
    destruct (boldMatch (c :: r)) as [[m rest]|] eqn:E.
    + pose proof (boldMatch_shorter _ _ _ E) as Hlen.
      destruct (boldMatch_sound _ _ _ E) as [Hs _].
      cbn [concat]. rewrite (IH rest Hlen []), Hs. cbn [app].
      rewrite <- !app_assoc. reflexivity.
    + rewrite IH by (cbn [length]; lia). rewrite <- app_assoc. reflexivity.
Qed.

Lemma splitScan_odd s :
  forall acc, Nat.odd (length (splitScan acc s)) = true.
Proof.
  induction s as [s IH] using (induction_ltof1 _ (@length N)).
  unfold ltof in IH. intros acc. destruct s as [|c r].
  - rewrite splitScan_nil. reflexivity.
  - rewrite splitScan_cons.
    destruct (boldMatch (c :: r)) as [[m rest]|] eqn:E.
    + pose proof (boldMatch_shorter _ _ _ E) as Hlen.
      cbn [length]. rewrite Nat.odd_succ, Nat.even_succ. apply IH. exact Hlen.
    + apply IH. cbn [length]. lia.
Qed.

Lemma renderInline_not_nil text : renderInline text <> [].
Proof.
  unfold renderInline, splitBold.
  pose proof (splitScan_odd text []) as H.
  destruct (splitScan [] text); [discriminate|]. discriminate.
Qed.

Lemma containsBold_skipn s k :
  containsBold s = false -> startsWith bold (skipn k s) = false.
Proof.
  revert k; induction s as [|c s IH]; intros k H.
  - rewrite skipn_nil. reflexivity.
  - cbn [containsBold] in H. apply orb_false_iff in H as [H0 H].
    destruct k as [|k]; [exact H0|]. cbn [skipn]. apply IH. exact H.
Qed.

Lemma containsBold_matchWithin s n :
  containsBold s = false -> matchWithin n s = false.
Proof.
  revert s; induction n as [|n IH]; intros s H; [reflexivity|].
  cbn [matchWithin]. unfold boldMatch.
  pose proof (containsBold_skipn s 0 H) as H0. cbn [skipn] in H0. rewrite H0.
  destruct s as [|c s]; [reflexivity|].
  cbn [containsBold] in H. apply orb_false_iff in H as [_ H]. apply IH. exact H.
Qed.

(** A text closed by the first delimiter met is what the lazy run takes. *)
Lemma lazyClose_complete m rest :
  Forall (fun c => isLineTerminator c = false) m ->
  closesFirst m ->
  lazyClose (m ++ bold ++ rest) = Some (m, rest).
Proof.
  intros Hlt. induction Hlt as [|c m Hc _ IH]; intros Hfirst;
    rewrite lazyClose_unfold.
  - cbn [app]. rewrite startsWith_app. reflexivity.
  - assert (H0 : startsWith bold ((c :: m) ++ bold ++ rest) = false).
    { rewrite app_assoc, startsWith_app_r.
      - apply (Hfirst 0). cbn [length]. lia.
      - rewrite length_app. cbn [length]. change (length bold) with 2. lia. }
    rewrite H0. cbn [app]. rewrite Hc, IH; [reflexivity|].
    intros k Hk. apply (Hfirst (S k)). cbn [length]. lia.
Qed.

Lemma containsBold_closesFirst m :
  containsBold (m ++ [42%N]) = false -> closesFirst m.
Proof.
  intros H k Hk.
  replace (m ++ bold) with ((m ++ [42%N]) ++ [42%N])
    by (rewrite <- app_assoc; reflexivity).
  rewrite skipn_app.
  replace (k - length (m ++ [42%N])) with 0
    by (rewrite length_app; cbn [length]; lia).
  cbn [skipn]. rewrite startsWith_app_r.
  - apply containsBold_skipn. exact H.
  - rewrite length_skipn, length_app. cbn [length].
    change (length bold) with 2. lia.
Qed.

Lemma no_star_no_match o x :
  ~ In 42%N o -> matchWithin (length o) (o ++ x) = false.
Proof.
  induction o as [|c o IH]; intros Hno; [reflexivity|].
  cbn [length app matchWithin]. unfold boldMatch.
  assert (Hc : (42 =? c)%N = false).
  { apply N.eqb_neq. intros <-. apply Hno. left. reflexivity. }
  change (startsWith bold (c :: o ++ x))
    with ((42 =? c)%N && startsWith [42%N] (o ++ x)).
  rewrite Hc. cbn [andb]. apply IH. intros H. apply Hno. right. exact H.
Qed.

Lemma splitScan_skip o :
  forall acc x,
    matchWithin (length o) (o ++ x) = false ->
    splitScan acc (o ++ x) = splitScan (acc ++ o) x.
Proof.
  induction o as [|c o IH]; intros acc x H.
  - rewrite app_nil_r. reflexivity.
  - cbn [app]. rewrite splitScan_cons.
    cbn [length app matchWithin] in H.
    destruct (boldMatch (c :: o ++ x)); [discriminate|].
    rewrite IH by exact H. rewrite <- app_assoc. reflexivity.
Qed.

End MoreInlineFacts.

(* ===================================================================== *)
(** ** More on the loop *)
(* ===================================================================== *)

Section MoreLoopFacts.

Lemma heading2_only l :
  startsWith h2Mark l = true ->
  startsWith h3Mark l = false
  /\ isTableLine l = false /\ isBulletLine l = false /\ isOrderedLine l = false.
Proof.
  intros [r ->]%startsWith_inv.
  change (h2Mark ++ r) with (35%N :: 35%N :: 32%N :: r). unfold isOrderedLine.
  rewrite orderedMarker_digit by reflexivity. repeat split.
Qed.

Lemma blank_only l :
  forallb isSpace l = true ->
  trim l = []
  /\ startsWith h3Mark (trim l) = false /\ startsWith h2Mark (trim l) = false
  /\ isTableLine (trim l) = false /\ isBulletLine (trim l) = false
  /\ isOrderedLine (trim l) = false.
Proof.
  intros H. apply trim_nil in H. rewrite H. repeat split.
Qed.

(** A line that belongs to no run is an iteration of its own, whatever
    the lines around it. *)
Lemma single_line_Segments pre l post a b :
  isTableLine (trim l) = false ->
  isBulletLine (trim l) = false ->
  isOrderedLine (trim l) = false ->
  Segments pre a -> Segments post b ->
  Segments (pre ++ l :: post) (a ++ pushed [l] ++ b).
Proof.
  intros HT HB HO Ha Hb.
  apply Segments_app; [exact Ha| |].
  - unfold noRunAcross, runBreak. cbn [hd].
    rewrite HT, HB, HO, !andb_false_r. auto.
  - replace (pushed [l]) with (pushed (l :: post))
      by (unfold pushed; cbv zeta; rewrite HT, HB, HO; reflexivity).
    apply Segments_step.
    replace (taken (l :: post)) with 1; [exact Hb|].
    unfold taken. cbv zeta. rewrite HT, HB, HO.
    destruct (startsWith h3Mark (trim l)), (startsWith h2Mark (trim l));
      reflexivity.
Qed.

(** A run of one of the three grouping tests between two lines that do
    not satisfy it: one iteration takes the whole run. *)
Lemma grouped_run_Segments p pre l run post a b :
  In p [isTableLine; isBulletLine; isOrderedLine] ->
  Forall (fun x => p (trim x) = true) (l :: run) ->
  p (trim (last pre [])) = false ->
  p (trim (hd [] post)) = false ->
  Segments pre a -> Segments post b ->
  Segments (pre ++ (l :: run) ++ post)
           (a ++ pushed ((l :: run) ++ post) ++ b)
  /\ runLines p ((l :: run) ++ post) = List.map trim (l :: run).
Proof.
  intros Hp Hall Hpre Hpost Ha Hb.
  assert (Hl : p (trim l) = true) by (inversion Hall; assumption).
  assert (Hrun : runLines p ((l :: run) ++ post) = List.map trim (l :: run))
    by (apply runLines_all; assumption).
  split; [|exact Hrun].
  assert (Hcross : noRunAcross pre ((l :: run) ++ post)).
  { unfold noRunAcross, runBreak. cbn [app hd].
    destruct Hp as [<-|[<-|[<-|[]]]].
    - destruct (table_only _ Hl) as (_ & _ & HB & HO).
      rewrite Hpre, HB, HO, !andb_false_r. auto.
    - destruct (bullet_only _ Hl) as (_ & _ & HT & HO).
      rewrite Hpre, HT, HO, !andb_false_r. auto.
    - destruct (ordered_only _ Hl) as (_ & _ & HT & HB).
      rewrite Hpre, HT, HB, !andb_false_r. auto. }
  apply Segments_app; [exact Ha|exact Hcross|].
  change ((l :: run) ++ post) with (l :: run ++ post).
  apply Segments_step.
  rewrite (taken_run p l (run ++ post) Hp Hl).
  change (l :: run ++ post) with ((l :: run) ++ post).
  rewrite Hrun, length_map, skipn_run. exact Hb.
Qed.

Lemma runLines_trim p r1 :
  forall r2, List.map trim r1 = List.map trim r2 -> runLines p r1 = runLines p r2.
Proof.
  induction r1 as [|l1 r1 IH]; intros [|l2 r2] H; try discriminate;
    [reflexivity|].
  cbn [List.map] in H. assert (Hl : trim l1 = trim l2) by congruence.
  assert (Hr : List.map trim r1 = List.map trim r2) by congruence.
  cbn [runLines]. rewrite Hl, (IH r2 Hr). reflexivity.
Qed.

Lemma taken_trim r1 r2 :
  List.map trim r1 = List.map trim r2 -> taken r1 = taken r2.
Proof.
  intros H. destruct r1 as [|l1 t1], r2 as [|l2 t2]; try discriminate;
    [reflexivity|].
  assert (Hl : trim l1 = trim l2) by (cbn [List.map] in H; congruence).
  unfold taken. rewrite Hl, !(runLines_trim _ (l1 :: t1) (l2 :: t2) H).
  reflexivity.
Qed.

Lemma pushed_trim r1 r2 :
  List.map trim r1 = List.map trim r2 -> pushed r1 = pushed r2.
Proof.
  intros H. destruct r1 as [|l1 t1], r2 as [|l2 t2]; try discriminate;
    [reflexivity|].
  assert (Hl : trim l1 = trim l2) by (cbn [List.map] in H; congruence).
  unfold pushed. rewrite Hl, !(runLines_trim _ (l1 :: t1) (l2 :: t2) H).
  reflexivity.
Qed.

(** The scan sees the lines through their trimmed forms only. *)
Lemma Segments_trim r1 out :
  Segments r1 out ->
  forall r2, List.map trim r1 = List.map trim r2 -> Segments r2 out.
Proof.
  induction 1 as [|l rest out _ IH]; intros r2 H.
  - destruct r2; [constructor|discriminate].
  - destruct r2 as [|l2 rest2]; [discriminate|].
    rewrite (pushed_trim _ _ H). apply Segments_step. apply IH.
    rewrite <- (taken_trim _ _ H), <- !skipn_map. f_equal. exact H.
Qed.

Lemma pushed_length rest : length (pushed rest) <= 1.
Proof.
  destruct rest as [|l rest]; [cbn; lia|]. unfold pushed, tableNode. cbv zeta.
  repeat match goal with
         | |- context [if ?c then _ else _] => destruct c
         end; cbn [length]; lia.
Qed.

Lemma Segments_length rest out :
  Segments rest out -> length out <= length rest.
Proof.
  induction 1 as [|l rest out _ IH]; [cbn; lia|].
  pose proof (taken_bounds l rest) as [Hge Hle].
  pose proof (pushed_length (l :: rest)).
  rewrite length_app. rewrite length_skipn in IH. lia.
Qed.

Lemma runLines_not_nil p l rest :
  p (trim l) = true -> runLines p (l :: rest) <> [].
Proof. intros H. cbn [runLines]. rewrite H. discriminate. Qed.

Lemma Forall_renderInline (A : Type) (f : A -> str) (xs : list A) :
  Forall (fun item => item <> []) (List.map (fun x => renderInline (f x)) xs).
Proof.
  apply Forall_forall. intros item [x [<- _]]%in_map_iff.
  apply renderInline_not_nil.
Qed.

Lemma pushed_wellFormed rest : Forall wellFormed (pushed rest).
Proof.
  destruct rest as [|l rest]; [constructor|]. unfold pushed. cbv zeta.
  destruct (startsWith h3Mark (trim l)).
  { constructor; [|constructor]. cbn [wellFormed].
    split; [right; reflexivity|]. exists (substring 4 (trim l)). reflexivity. }
  destruct (startsWith h2Mark (trim l)).
  { constructor; [|constructor]. cbn [wellFormed].
    split; [left; reflexivity|]. exists (substring 3 (trim l)). reflexivity. }
  destruct (isTableLine (trim l)).
  { unfold tableNode.
    destruct (2 <=? length (runLines isTableLine (l :: rest))); constructor;
      [|constructor]. cbn [wellFormed]. split; [apply tableCells_nonempty|].
    apply Forall_forall. intros row [r [<- _]]%in_map_iff.
    apply Forall_renderInline. }
  destruct (isBulletLine (trim l)) eqn:B.
  { constructor; [|constructor]. cbn [wellFormed]. split.
    - pose proof (runLines_not_nil isBulletLine l rest B).
      destruct (runLines isBulletLine (l :: rest)); [congruence|discriminate].
    - apply Forall_renderInline. }
  destruct (isOrderedLine (trim l)) eqn:O.
  { constructor; [|constructor]. cbn [wellFormed]. split.
    - pose proof (runLines_not_nil isOrderedLine l rest O).
      destruct (runLines isOrderedLine (l :: rest)); [congruence|discriminate].
    - apply Forall_renderInline. }
  destruct (0 <? length (trim l)); constructor; [|constructor].
  cbn [wellFormed]. apply renderInline_not_nil.
Qed.

Lemma Segments_wellFormed rest out :
  Segments rest out -> Forall wellFormed out.
Proof.
  induction 1 as [|l rest out _ IH]; [constructor|].
  apply Forall_app. split; [apply pushed_wellFormed|exact IH].
Qed.

End MoreLoopFacts.

(* ===================================================================== *)
(** ** Unmatched pieces of the split *)
(* ===================================================================== *)

(** The split of a text that starts, after a piece without asterisk, with
    a pair of delimiters: the piece, the match, then the split of the rest. *)
Lemma splitBold_pair o m rest :
  ~ In 42%N o ->
  Forall (fun c => isLineTerminator c = false) m ->
  closesFirst m ->
  splitBold (o ++ bold ++ m ++ bold ++ rest)
  = o :: (bold ++ m ++ bold) :: splitBold rest.
Proof.
  intros Hno Hlt Hfirst. unfold splitBold.
  rewrite splitScan_skip by (apply no_star_no_match; exact Hno).
  cbn [app].
  change (bold ++ m ++ bold ++ rest) with (42%N :: 42%N :: m ++ bold ++ rest).
  rewrite splitScan_cons.
  assert (Hmatch : boldMatch (42%N :: 42%N :: m ++ bold ++ rest) = Some (m, rest)).
  { unfold boldMatch.
    change (startsWith bold (42%N :: 42%N :: m ++ bold ++ rest)) with true.
    cbv iota.
    change (skipn 2 (42%N :: 42%N :: m ++ bold ++ rest)) with (m ++ bold ++ rest).
    apply lazyClose_complete; assumption. }
  rewrite Hmatch. reflexivity.
Qed.

(** C9: for "**" and "***" the formatter returns the one span
    [Emphasized ""].  More generally every piece of the split that starts
    and ends with the delimiter, the bare delimiter included, gives at its
    place an emphasized span, two code units stripped from each end
    (nothing is left of a piece of two or three units): so does a text
    without a match as a whole, and so does the piece left after a match,
    as in "**x****". *)
Theorem renderInline_unmatched_delimited :
  renderInline (lit "**") = [Emphasized []]
  /\ renderInline (lit "***") = [Emphasized []]
  /\ (forall text j piece,
         nth_error (splitBold text) j = Some piece ->
         startsWith bold piece = true ->
         endsWith bold piece = true ->
         nth_error (renderInline text) j
         = Some (Emphasized (firstn (length piece - 4) (skipn 2 piece))))
  /\ (forall text,
         matchWithin (length text) text = false ->
         startsWith bold text = true ->
         endsWith bold text = true ->
         renderInline text = [Emphasized (firstn (length text - 4) (skipn 2 text))])
  /\ (forall o m piece,
         forallb (fun c => negb (c =? 42)%N) o = true ->
         forallb (fun c => negb (isLineTerminator c)) m = true ->
         containsBold (m ++ [42%N]) = false ->
         matchWithin (length piece) piece = false ->
         startsWith bold piece = true ->
         endsWith bold piece = true ->
         renderInline (o ++ bold ++ m ++ bold ++ piece)
         = [PlainText o; Emphasized m;
            Emphasized (firstn (length piece - 4) (skipn 2 piece))]).
Proof.
  assert (Hpart : forall piece,
             startsWith bold piece = true -> endsWith bold piece = true ->
             renderPart piece
             = Emphasized (firstn (length piece - 4) (skipn 2 piece))).
  { intros piece Hs He. unfold renderPart. rewrite Hs, He. cbn [andb].
    rewrite slice_inner; [reflexivity|].
    apply startsWith_length in Hs. exact Hs. }
  split; [reflexivity|]. split; [reflexivity|]. split; [|split].
  - intros text j piece Hj Hs He. unfold renderInline.
    rewrite (map_nth_error renderPart j (splitBold text) Hj).
    rewrite (Hpart piece Hs He). reflexivity.
  - intros text Hno Hs He. unfold renderInline, splitBold.
    rewrite (splitScan_no_match text [] Hno). cbn [app List.map].
    rewrite (Hpart text Hs He). reflexivity.
  - intros o m piece Ho Hm Hfirst Hno Hs He.
    assert (Hstar : ~ In 42%N o).
    { intros Hin. rewrite forallb_forall in Ho. specialize (Ho _ Hin).
      discriminate. }
    assert (Hlt : Forall (fun c => isLineTerminator c = false) m).
    { apply Forall_forall. intros c Hc. rewrite forallb_forall in Hm.
      specialize (Hm _ Hc).
      destruct (isLineTerminator c); [discriminate|reflexivity]. }
    apply containsBold_closesFirst in Hfirst.
    unfold renderInline.
    rewrite (splitBold_pair o m piece Hstar Hlt Hfirst).
    unfold splitBold. rewrite (splitScan_no_match piece [] Hno).
    cbn [app List.map]. rewrite renderPart_match, (Hpart piece Hs He).
    f_equal. apply renderPart_plain.
    destruct o as [|c o]; [reflexivity|].
    assert (Hc : (42 =? c)%N = false).
    { apply N.eqb_neq. intros <-. apply Hstar. left. reflexivity. }
    change (startsWith bold (c :: o)) with ((42 =? c)%N && startsWith [42%N] o).
    rewrite Hc. reflexivity.
Qed.

Lemma renderInline_unmatched_delimited_witness :
  (nth_error (splitBold (lit "See **x*****")) 2 = Some (lit "***")
   /\ nth_error (renderInline (lit "See **x*****")) 2
      = Some (Emphasized []))
  /\ (matchWithin 5 (bold ++ 13%N :: bold) = false
      /\ startsWith bold (bold ++ 13%N :: bold) = true
      /\ endsWith bold (bold ++ 13%N :: bold) = true
      /\ renderInline (bold ++ 13%N :: bold) = [Emphasized [13%N]])
  /\ renderInline (lit "Dose: " ++ bold ++ lit "x" ++ bold ++ lit "**")
     = [PlainText (lit "Dose: "); Emphasized (lit "x"); Emphasized []].
Proof.
  split; [|split].
  - split; [reflexivity|].
    apply (proj1 (proj2 (proj2 renderInline_unmatched_delimited))
             (lit "See **x*****") 2 (lit "***"));
      reflexivity.
  - split; [reflexivity|]. split; [reflexivity|]. split; [reflexivity|].
    apply (proj1 (proj2 (proj2 (proj2 renderInline_unmatched_delimited)))
             (bold ++ 13%N :: bold));
      reflexivity.
  - apply (proj2 (proj2 (proj2 (proj2 renderInline_unmatched_delimited)))
             (lit "Dose: ") (lit "x") (lit "**"));
      reflexivity.
Defined.

(* ===================================================================== *)
(** ** Further properties of the inline formatter *)
(* ===================================================================== *)

(** X1: the split loses nothing: the pieces, put end to end, are the text;
    there is one span per piece and their number is odd, so the formatter
    never returns the empty array. *)
Theorem splitBold_covers :
  forall text,
    concat (splitBold text) = text
    /\ length (renderInline text) = length (splitBold text)
    /\ Nat.odd (length (renderInline text)) = true.
Proof.
  intros text. unfold renderInline, splitBold. rewrite length_map.
  split; [apply (splitScan_concat text [])|].
  split; [reflexivity|apply splitScan_odd].
Qed.

(** X2: a text in which the delimiter does not occur is returned as one
    plain text span, single asterisks included. *)
Theorem renderInline_no_delimiter :
  forall text,
    containsBold text = false -> renderInline text = [PlainText text].
Proof.
  intros text H. unfold renderInline, splitBold.
  rewrite splitScan_no_match by (apply containsBold_matchWithin; exact H).
  cbn [app List.map]. apply f_equal2; [|reflexivity].
  apply renderPart_plain.
  pose proof (containsBold_skipn text 0 H) as H0. cbn [skipn] in H0.
  rewrite H0. reflexivity.
Qed.

Lemma renderInline_no_delimiter_witness :
  containsBold (lit "Take 2 * 250 mg *daily*") = false
  /\ renderInline (lit "Take 2 * 250 mg *daily*")
     = [PlainText (lit "Take 2 * 250 mg *daily*")].
Proof.
  split; [reflexivity|].
  apply (renderInline_no_delimiter (lit "Take 2 * 250 mg *daily*")).
  reflexivity.
Defined.

(** X3: a text made of a piece without asterisk, a pair of delimiters
    around a text that has no line terminator, no delimiter inside and no
    asterisk at its end, and a rest: the piece as plain text, the text of
    the pair emphasized, then the spans of the rest, formatted on its own. *)
Theorem renderInline_pair :
  forall o m rest,
    forallb (fun c => negb (c =? 42)%N) o = true ->
    forallb (fun c => negb (isLineTerminator c)) m = true ->
    containsBold (m ++ [42%N]) = false ->
    renderInline (o ++ bold ++ m ++ bold ++ rest)
    = PlainText o :: Emphasized m :: renderInline rest.
Proof.
  intros o m rest Ho Hm Hfirst.
  assert (Hno : ~ In 42%N o).
  { intros Hin. rewrite forallb_forall in Ho. specialize (Ho _ Hin).
    discriminate. }
  assert (Hlt : Forall (fun c => isLineTerminator c = false) m).
  { apply Forall_forall. intros c Hc. rewrite forallb_forall in Hm.
    specialize (Hm _ Hc). destruct (isLineTerminator c); [discriminate|reflexivity]. }
  apply containsBold_closesFirst in Hfirst.
  unfold renderInline, splitBold.
  rewrite splitScan_skip by (apply no_star_no_match; exact Hno).
  cbn [app]. change (bold ++ m ++ bold ++ rest) with (42%N :: 42%N :: m ++ bold ++ rest).
  rewrite splitScan_cons.
  assert (Hmatch : boldMatch (42%N :: 42%N :: m ++ bold ++ rest) = Some (m, rest)).
  { unfold boldMatch.
    change (startsWith bold (42%N :: 42%N :: m ++ bold ++ rest)) with true.
    cbv iota. change (skipn 2 (42%N :: 42%N :: m ++ bold ++ rest)) with (m ++ bold ++ rest).
    apply lazyClose_complete; assumption. }
  rewrite Hmatch. cbn [List.map]. rewrite renderPart_match.
  f_equal. apply renderPart_plain.
  destruct o as [|c o]; [reflexivity|].
  assert (Hc : (42 =? c)%N = false).
  { apply N.eqb_neq. intros <-. apply Hno. left. reflexivity. }
  change (startsWith bold (c :: o)) with ((42 =? c)%N && startsWith [42%N] o).
  rewrite Hc. reflexivity.
Qed.

Lemma renderInline_pair_witness :
  renderInline (lit "Note: " ++ bold ++ lit "2 * 1" ++ bold ++ lit " **x")
  = PlainText (lit "Note: ") :: Emphasized (lit "2 * 1")
      :: renderInline (lit " **x").
Proof.
  apply (renderInline_pair (lit "Note: ") (lit "2 * 1") (lit " **x"));
    reflexivity.
Defined.

(* ===================================================================== *)
(** ** Further properties of the block segmenter *)
(* ===================================================================== *)

(** X4: a line whose trimmed form starts with "## " gives exactly one
    level-2 heading, whatever the lines around it; its text is the rest of
    the trimmed line after the three code units of the marker, as one
    plain text run. *)
Theorem heading2_literal :
  forall content pre l post,
    splitOn 10 content = pre ++ l :: post ->
    startsWith h2Mark (trim l) = true ->
    exists a b,
      renderLines pre = Returned a /\ renderLines post = Returned b
      /\ MarkdownRenderer content
         = Returned (a ++ [Heading 2 [PlainText (substring 3 (trim l))]] ++ b).
Proof.
  intros content pre l post Hsplit Hl.
  unfold MarkdownRenderer. rewrite Hsplit.
  apply (render_parts pre [l] post). intros a b Ha Hb.
  destruct (heading2_only _ Hl) as (H3 & HT & HB & HO).
  replace [Heading 2 [PlainText (substring 3 (trim l))]] with (pushed [l])
    by (unfold pushed; cbv zeta; rewrite H3, Hl; reflexivity).
  apply single_line_Segments; assumption.
Qed.

Lemma heading2_literal_witness :
  exists a b,
    renderLines [lit "| a |"] = Returned a /\ renderLines [lit "| b |"] = Returned b
    /\ MarkdownRenderer (unlines ["| a |"; "## **Plan**"; "| b |"]%string)
       = Returned (a ++ [Heading 2 [PlainText (lit "**Plan**")]] ++ b).
Proof.
  apply (heading2_literal (unlines ["| a |"; "## **Plan**"; "| b |"]%string)
           [lit "| a |"] (lit "## **Plan**") [lit "| b |"]);
    reflexivity.
Defined.

(** X5: a run of lines whose trimmed forms start with "* " or "- ",
    between two lines that do not, gives exactly one unordered list: one
    item per line, in the order of the lines, each the inline formatting
    of the trimmed line without its two-unit marker.  The two markers may
    be mixed in one list. *)
Theorem bullet_list_of_run :
  forall content pre l run post,
    splitOn 10 content = pre ++ (l :: run) ++ post ->
    Forall (fun x => isBulletLine (trim x) = true) (l :: run) ->
    isBulletLine (trim (last pre [])) = false ->
    isBulletLine (trim (hd [] post)) = false ->
    exists a b,
      renderLines pre = Returned a /\ renderLines post = Returned b
      /\ MarkdownRenderer content
         = Returned
             (a ++ [UnorderedList
                      (List.map (fun x => renderInline (substring 2 (trim x)))
                                (l :: run))]
                ++ b).
Proof.
  intros content pre l run post Hsplit Hall Hpre Hpost.
  unfold MarkdownRenderer. rewrite Hsplit.
  apply render_parts. intros a b Ha Hb.
  destruct (grouped_run_Segments isBulletLine pre l run post a b)
    as [Hseg Hrun]; auto; [right; left; reflexivity|].
  assert (Hl : isBulletLine (trim l) = true) by (inversion Hall; assumption).
  destruct (bullet_only _ Hl) as (H3 & H2 & HT & _).
  replace (pushed ((l :: run) ++ post))
    with [UnorderedList
            (List.map (fun x => renderInline (substring 2 (trim x))) (l :: run))]
    in Hseg; [exact Hseg|].
  unfold pushed. cbn [app]. cbv zeta. rewrite H3, H2, HT, Hl.
  change (l :: run ++ post) with ((l :: run) ++ post).
  rewrite Hrun, map_map. reflexivity.
Qed.

Lemma bullet_list_of_run_witness :
  exists a b,
    renderLines [lit "### Benefits"] = Returned a
    /\ renderLines [lit "1. next"] = Returned b
    /\ MarkdownRenderer
         (unlines ["### Benefits"; "* **Calm**: yes"; "  - second"; "1. next"]%string)
       = Returned
           (a ++ [UnorderedList
                    [[PlainText []; Emphasized (lit "Calm"); PlainText (lit ": yes")];
                     [PlainText (lit "second")]]]
              ++ b).
Proof.
  apply (bullet_list_of_run
           (unlines ["### Benefits"; "* **Calm**: yes"; "  - second"; "1. next"]%string)
           [lit "### Benefits"] (lit "* **Calm**: yes") [lit "  - second"]
           [lit "1. next"]);
    [reflexivity|repeat constructor|reflexivity|reflexivity].
Defined.

(** X6: a run of lines whose trimmed forms start with digits and a period,
    between two lines that do not, gives exactly one ordered list: one
    item per line, in the order of the lines, each the inline formatting
    of the trimmed line without its marker and the white space after it. *)
Theorem ordered_list_of_run :
  forall content pre l run post,
    splitOn 10 content = pre ++ (l :: run) ++ post ->
    Forall (fun x => isOrderedLine (trim x) = true) (l :: run) ->
    isOrderedLine (trim (last pre [])) = false ->
    isOrderedLine (trim (hd [] post)) = false ->
    exists a b,
      renderLines pre = Returned a /\ renderLines post = Returned b
      /\ MarkdownRenderer content
         = Returned
             (a ++ [OrderedList
                      (List.map (fun x => renderInline (stripOrdered (trim x)))
                                (l :: run))]
                ++ b).
Proof.
  intros content pre l run post Hsplit Hall Hpre Hpost.
  unfold MarkdownRenderer. rewrite Hsplit.
  apply render_parts. intros a b Ha Hb.
  destruct (grouped_run_Segments isOrderedLine pre l run post a b)
    as [Hseg Hrun]; auto; [right; right; left; reflexivity|].
  assert (Hl : isOrderedLine (trim l) = true) by (inversion Hall; assumption).
  destruct (ordered_only _ Hl) as (H3 & H2 & HT & HB).
  replace (pushed ((l :: run) ++ post))
    with [OrderedList
            (List.map (fun x => renderInline (stripOrdered (trim x))) (l :: run))]
    in Hseg; [exact Hseg|].
  unfold pushed. cbn [app]. cbv zeta. rewrite H3, H2, HT, HB, Hl.
  change (l :: run ++ post) with ((l :: run) ++ post).
  rewrite Hrun, map_map. reflexivity.
Qed.

Lemma ordered_list_of_run_witness :
  exists a b,
    renderLines [lit "Steps"] = Returned a /\ renderLines [lit "* x"] = Returned b
    /\ MarkdownRenderer (unlines ["Steps"; "5. first"; "9.second"; "* x"]%string)
       = Returned
           (a ++ [OrderedList [[PlainText (lit "first")]; [PlainText (lit "second")]]]
              ++ b).
Proof.
  apply (ordered_list_of_run
           (unlines ["Steps"; "5. first"; "9.second"; "* x"]%string)
           [lit "Steps"] (lit "5. first") [lit "9.second"] [lit "* x"]);
    [reflexivity|repeat constructor|reflexivity|reflexivity].
Defined.

(** X7: the ordered marker.  A line passes the test of the ordered branch
    exactly when it is one or more digits, a period and anything: no space
    is needed after the period.  The item keeps what follows the period
    without its leading white space, so the digits of the marker are not
    kept. *)
Theorem ordered_marker :
  (forall line,
      isOrderedLine line = true
      <-> exists ds r, ds <> [] /\ forallb isDigit ds = true
                       /\ line = ds ++ 46%N :: r)
  /\ (forall ds r,
         ds <> [] -> forallb isDigit ds = true ->
         stripOrdered (ds ++ 46%N :: r) = dropWhile isSpace r).
Proof.
  assert (Hmark : forall ds r, ds <> [] -> forallb isDigit ds = true ->
                               orderedMarker (ds ++ 46%N :: r) = Some r).
  { intros ds r Hne Hds. unfold orderedMarker.
    rewrite (dropWhile_app_stop isDigit ds 46 r Hds eq_refl).
    rewrite length_app. cbn [length].
    destruct ds as [|d ds]; [congruence|]. cbn [length].
    destruct (Nat.ltb_spec (S (length r)) (S (length ds) + S (length r)));
      [reflexivity|lia]. }
  split.
  - intros line. split.
    + unfold isOrderedLine, orderedMarker.
      destruct (dropWhile_split isDigit line) as [w [Hline Hw]].
      destruct (Nat.ltb_spec (length (dropWhile isDigit line)) (length line))
        as [Hlt|]; [|discriminate].
      destruct (dropWhile isDigit line) as [|c r] eqn:E; [discriminate|].
      destruct (N.eqb_spec c 46) as [->|]; [|discriminate]. intros _.
      exists w, r. repeat split; [|exact Hw|exact Hline].
      intros ->. rewrite Hline in Hlt. cbn [app] in Hlt. lia.
    + intros [ds [r (Hne & Hds & ->)]]. unfold isOrderedLine.
      rewrite (Hmark ds r Hne Hds). reflexivity.
  - intros ds r Hne Hds. unfold stripOrdered.
    rewrite (Hmark ds r Hne Hds). reflexivity.
Qed.

Lemma ordered_marker_witness :
  isOrderedLine (lit "2.5 mg daily") = true
  /\ stripOrdered (lit "12" ++ 46%N :: lit "   Rest") = dropWhile isSpace (lit "   Rest").
Proof.
  split.
  - apply (proj2 (proj1 ordered_marker (lit "2.5 mg daily"))).
    exists (lit "2"), (lit "5 mg daily").
    split; [discriminate|]. split; reflexivity.
  - apply (proj2 ordered_marker (lit "12") (lit "   Rest"));
      [discriminate|reflexivity].
Defined.

(** X8: a line that is not blank once trimmed and passes none of the five
    tests gives exactly one paragraph, the inline formatting of the
    trimmed line, whatever the lines around it. *)
Theorem paragraph_of_line :
  forall content pre l post,
    splitOn 10 content = pre ++ l :: post ->
    startsWith h3Mark (trim l) = false ->
    startsWith h2Mark (trim l) = false ->
    isTableLine (trim l) = false ->
    isBulletLine (trim l) = false ->
    isOrderedLine (trim l) = false ->
    trim l <> [] ->
    exists a b,
      renderLines pre = Returned a /\ renderLines post = Returned b
      /\ MarkdownRenderer content
         = Returned (a ++ [Paragraph (renderInline (trim l))] ++ b).
Proof.
  intros content pre l post Hsplit H3 H2 HT HB HO Hne.
  unfold MarkdownRenderer. rewrite Hsplit.
  apply (render_parts pre [l] post). intros a b Ha Hb.
  replace [Paragraph (renderInline (trim l))] with (pushed [l]).
  - apply single_line_Segments; assumption.
  - unfold pushed. cbv zeta. rewrite H3, H2, HT, HB, HO.
    destruct (trim l); [congruence|reflexivity].
Qed.

Lemma paragraph_of_line_witness :
  exists a b,
    renderLines [lit "* a"] = Returned a /\ renderLines [lit "* b"] = Returned b
    /\ MarkdownRenderer (unlines ["* a"; " #### **Note** 1.5 mg"; "* b"]%string)
       = Returned
           (a ++ [Paragraph (renderInline (trim (lit " #### **Note** 1.5 mg")))]
              ++ b).
Proof.
  apply (paragraph_of_line
           (unlines ["* a"; " #### **Note** 1.5 mg"; "* b"]%string)
           [lit "* a"] (lit " #### **Note** 1.5 mg") [lit "* b"]);
    try reflexivity. discriminate.
Defined.

(** X9: a line made of white space only gives no node, and no run goes
    across it: the nodes are those of the lines before followed by those
    of the lines after, so two lists that a blank line separates stay two
    lists. *)
Theorem blank_line_separates :
  forall content pre l post,
    splitOn 10 content = pre ++ l :: post ->
    forallb isSpace l = true ->
    exists a b,
      renderLines pre = Returned a /\ renderLines post = Returned b
      /\ MarkdownRenderer content = Returned (a ++ b).
Proof.
  intros content pre l post Hsplit Hl.
  unfold MarkdownRenderer. rewrite Hsplit.
  apply (render_parts pre [l] post []). intros a b Ha Hb.
  destruct (blank_only l Hl) as (Hnil & H3 & H2 & HT & HB & HO).
  replace (@nil Block) with (pushed [l])
    by (unfold pushed; cbv zeta; rewrite H3, H2, HT, HB, HO, Hnil; reflexivity).
  apply single_line_Segments; assumption.
Qed.

Lemma blank_line_separates_witness :
  exists a b,
    renderLines [lit "* a"] = Returned a /\ renderLines [lit "* b"] = Returned b
    /\ MarkdownRenderer (unlines ["* a"; "  "; "* b"]%string) = Returned (a ++ b)
    /\ a ++ b = [UnorderedList [[PlainText (lit "a")]];
                 UnorderedList [[PlainText (lit "b")]]].
Proof.
  destruct (blank_line_separates (unlines ["* a"; "  "; "* b"]%string)
              [lit "* a"] (lit "  ") [lit "* b"] eq_refl eq_refl)
    as [a [b (Ha & Hb & H)]].
  exists a, b. split; [exact Ha|]. split; [exact Hb|]. split; [exact H|].
  assert (E : Returned (a ++ b)
              = Returned [UnorderedList [[PlainText (lit "a")]];
                          UnorderedList [[PlainText (lit "b")]]])
    by (rewrite <- H; reflexivity).
  congruence.
Defined.

(** X10: the renderer composes along the lines: where the last line of a
    first part and the first line of the rest do not both pass the same
    grouping test, the nodes of the whole are the nodes of the first part
    followed by the nodes of the rest, in that order. *)
Theorem render_compose :
  forall content pre post,
    splitOn 10 content = pre ++ post ->
    noRunAcross pre post ->
    exists a b,
      renderLines pre = Returned a /\ renderLines post = Returned b
      /\ MarkdownRenderer content = Returned (a ++ b).
Proof.
  intros content pre post Hsplit Hcross.
  unfold MarkdownRenderer. rewrite Hsplit.
  apply (render_parts pre [] post []). intros a b Ha Hb.
  apply Segments_app; assumption.
Qed.

Lemma render_compose_witness :
  exists a b,
    renderLines [lit "| h |"; lit "|---|"] = Returned a
    /\ renderLines [lit "* item"; lit "text"] = Returned b
    /\ MarkdownRenderer (unlines ["| h |"; "|---|"; "* item"; "text"]%string)
       = Returned (a ++ b).
Proof.
  apply (render_compose (unlines ["| h |"; "|---|"; "* item"; "text"]%string)
           [lit "| h |"; lit "|---|"] [lit "* item"; lit "text"]);
    [reflexivity|repeat split].
Defined.

(** X11: the renderer sees each line through its trimmed form only: two
    contents whose lines are the same once trimmed (other indentation,
    trailing blanks, CR LF line ends) give the same document. *)
Theorem render_trim_invariant :
  forall c1 c2,
    List.map trim (splitOn 10 c1) = List.map trim (splitOn 10 c2) ->
    MarkdownRenderer c1 = MarkdownRenderer c2.
Proof.
  intros c1 c2 H. unfold MarkdownRenderer.
  destruct (Segments_total (splitOn 10 c1)) as [out Hout].
  rewrite (renderLines_Segments _ _ Hout).
  rewrite (renderLines_Segments _ _ (Segments_trim _ _ Hout _ H)).
  reflexivity.
Qed.

Lemma render_trim_invariant_witness :
  MarkdownRenderer (lit "   * a" ++ [13; 10]%N ++ lit "| b |" ++ [13; 10]%N ++ lit "c  ")
  = MarkdownRenderer (unlines ["* a"; "| b |"; "c"]%string).
Proof.
  apply render_trim_invariant. reflexivity.
Defined.

(** X12: the document never has more nodes than the content has lines. *)
Theorem render_node_count :
  forall content,
    exists doc,
      MarkdownRenderer content = Returned doc
      /\ length doc <= length (splitOn 10 content).
Proof.
  intros content. destruct (Segments_total (splitOn 10 content)) as [doc Hdoc].
  exists doc. split; [apply renderLines_Segments; exact Hdoc|].
  apply Segments_length. exact Hdoc.
Qed.

(** X13: every node of every document is well formed: a heading has level
    2 or 3 and one plain text run, a list has at least one item, every
    item, data cell and paragraph has at least one span, and no header
    cell is the empty string. *)
Theorem render_wellFormed :
  forall content,
    exists doc,
      MarkdownRenderer content = Returned doc /\ Forall wellFormed doc.
Proof.
  intros content. destruct (Segments_total (splitOn 10 content)) as [doc Hdoc].
  exists doc. split; [apply renderLines_Segments; exact Hdoc|].
  apply (Segments_wellFormed _ _ Hdoc).
Qed.

(** X14: the cells of a table line are clean: no cell is empty, none has
    white space at either end (trimming it again changes nothing) and none
    holds a pipe. *)
Theorem tableCells_clean :
  forall r,
    Forall (fun c => c <> [] /\ trim c = c /\ ~ In 124%N c) (tableCells r).
Proof.
  intros r. unfold tableCells. apply Forall_forall. intros c Hc.
  apply in_map_iff in Hc as [piece [<- Hp]].
  apply filter_In in Hp as [Hin Hnb]. split; [|split].
  - unfold nonBlank in Hnb. destruct (trim piece); [discriminate|discriminate].
  - apply trim_idempotent.
  - intros H. apply trim_In in H.
    destruct (proj1 (splitOn_In 124 r 124)) as [_ Hne];
      [exists piece; auto|]. apply Hne. reflexivity.
Qed.

(* ===================================================================== *)
(** ** Properties of the search handler *)
(* ===================================================================== *)

Lemma isFalsy_trim s : isFalsy (trim s) = forallb isSpace s.
Proof.
  destruct (forallb isSpace s) eqn:E.
  - apply trim_nil in E. rewrite E. reflexivity.
  - destruct (trim s) eqn:T; [|reflexivity].
    apply trim_nil in T. congruence.
Qed.

(** X15: the guard of [handleSearch].  A request is sent exactly when the
    query and the key each hold something else than white space, whatever
    [loading] is; it then carries the query and the key as typed, not
    trimmed, and the state is set to loading with the error and the last
    reply cleared.  When no request is sent, [loading] and the last reply
    are left as they were; with a blank query the whole state is.  The
    key and the query are never changed. *)
Theorem handleSearch_guard :
  forall s,
    (snd (handleSearch s) <> None
     <-> forallb isSpace (query s) = false /\ forallb isSpace (apiKey s) = false)
    /\ (forall r, snd (handleSearch s) = Some r ->
                  requestText r = query s
                  /\ requestUrl r = endpoint ++ apiKey s
                  /\ loading (fst (handleSearch s)) = true
                  /\ error (fst (handleSearch s)) = []
                  /\ response (fst (handleSearch s)) = None)
    /\ (snd (handleSearch s) = None ->
        loading (fst (handleSearch s)) = loading s
        /\ response (fst (handleSearch s)) = response s)
    /\ (forallb isSpace (query s) = true -> handleSearch s = (s, None))
    /\ apiKey (fst (handleSearch s)) = apiKey s
    /\ query (fst (handleSearch s)) = query s.
Proof.
  intros s. unfold handleSearch. rewrite !isFalsy_trim.
  destruct (forallb isSpace (query s)), (forallb isSpace (apiKey s));
    cbn [fst snd apiKey query loading response error];
    repeat match goal with
           | |- _ /\ _ => split
           | |- _ <-> _ => split
           end;
    try reflexivity; try discriminate; try tauto; try congruence.
  all: try (intros [? ?]; discriminate).
  all: try (intros r Hr; assert (E : r = mkRequest (endpoint ++ apiKey s) (query s))
                           by congruence; rewrite E; repeat split).
Qed.

Lemma handleSearch_guard_witness :
  let s := mkAppState (lit " key ") (lit "ginger tea ") true None (lit "old") false in
  snd (handleSearch s) = Some (mkRequest (endpoint ++ lit " key ") (lit "ginger tea "))
  /\ requestText (mkRequest (endpoint ++ lit " key ") (lit "ginger tea ")) = lit "ginger tea "
  /\ error (fst (handleSearch s)) = []
  /\ handleSearch (mkAppState (lit "key") (lit "  ") false None (lit "old") false)
     = (mkAppState (lit "key") (lit "  ") false None (lit "old") false, None).
Proof.
  intros s.
  destruct (handleSearch_guard s) as (_ & Hreq & _).
  destruct (Hreq (mkRequest (endpoint ++ lit " key ") (lit "ginger tea ")) eq_refl)
    as (Htext & _ & _ & Herr & _).
  split; [reflexivity|]. split; [exact Htext|]. split; [exact Herr|].
  apply (proj1 (proj2 (proj2 (proj2
           (handleSearch_guard
              (mkAppState (lit "key") (lit "  ") false None (lit "old") false)))))).
  reflexivity.
Defined.
